(** * Parrot: a shallow embedding of the command handlers

    The bot's handlers are glue over a chat framework, a document database
    and a few HTTP services.  The embedding keeps the handlers' control flow
    and makes everything the handlers obtain from outside (events, clock
    readings, HTTP answers, button choices, the guild cache) an explicit
    input, and everything they do (messages, database writes) an explicit
    output.

    Layout: definitions first, one module per source file or library
    (Base64, Encoding, Fact, Tags, Todo, Telephone, WaitFor, OnCmd,
    ContextCode, SuperOwner), then the theorems. *)

From Stdlib Require Import ZArith QArith Qround List Bool String Ascii Lia.
From stdpp Require Import gmap strings list fin_maps pretty.

Local Open Scope Z_scope.

(* ===================================================================== *)
(** ** Python runtime: [str], [bytes] and the [base64] module             *)
(* ===================================================================== *)

Module Base64.

(** A Python [str] is the list of its code points, a [bytes] object the
    list of its octets. *)
Definition pystr := list Z.
Definition pybytes := list Z.

Definition is_ascii (c : Z) : bool := (0 <=? c) && (c <? 128).

(** [s.encode("ascii")]: [None] stands for [UnicodeEncodeError]. *)
Definition encode_ascii (s : pystr) : option pybytes :=
  if forallb is_ascii s then Some s else None.

(** [b.decode("ascii")]: [None] stands for [UnicodeDecodeError]. *)
Definition decode_ascii (b : pybytes) : option pystr :=
  if forallb is_ascii b then Some b else None.

Definition BASE64_PAD : Z := 61.

Definition table_b2a_base64 : list Z :=
  List.map (fun a => Z.of_nat (nat_of_ascii a))
    (list_ascii_of_string
       "ABCDEFGHIJKLMNOPQRSTUVWXYZabcdefghijklmnopqrstuvwxyz0123456789+/").

Definition b2a (this_ch : Z) : Z := nth (Z.to_nat this_ch) table_b2a_base64 0.

(** Position of a character in the alphabet; the C table holds a value
    of 64 or more for every character outside it, here [None]. *)
Fixpoint index_of (c : Z) (tbl : list Z) (i : Z) : option Z :=
  match tbl with
  | [] => None
  | x :: tbl' => if x =? c then Some i else index_of c tbl' (i + 1)
  end.

Definition table_a2b_base64 (c : Z) : option Z := index_of c table_b2a_base64 0.

(** [base64.b64encode]: three octets give four characters, a last group
    of one or two octets is padded with [=]. *)
Fixpoint b64encode (bin : pybytes) : pybytes :=
  match bin with
  | [] => []
  | [a] =>
      [b2a (Z.shiftr a 2); b2a (Z.shiftl (Z.land a 3) 4); BASE64_PAD; BASE64_PAD]
  | [a; b] =>
      [b2a (Z.shiftr a 2);
       b2a (Z.lor (Z.shiftl (Z.land a 3) 4) (Z.shiftr b 4));
       b2a (Z.shiftl (Z.land b 15) 2);
       BASE64_PAD]
  | a :: b :: c :: rest =>
      b2a (Z.shiftr a 2)
      :: b2a (Z.lor (Z.shiftl (Z.land a 3) 4) (Z.shiftr b 4))
      :: b2a (Z.lor (Z.shiftl (Z.land b 15) 2) (Z.shiftr c 6))
      :: b2a (Z.land c 63)
      :: b64encode rest
  end.

(** [base64.b64decode(s)] with its default [validate=False] is
    [binascii.a2b_base64] in its lenient mode: characters outside the
    alphabet are skipped, a complete pad sequence ends the scan, and a
    quad left open at the end of the input raises [binascii.Error]
    ([None]).  [bin] collects the octets written so far, last first; every
    octet is stored through an [unsigned char]. *)
Fixpoint a2b_loop (ascii : pybytes) (quad_pos leftchar pads : Z) (bin : list Z)
  : option pybytes :=
  match ascii with
  | [] => if quad_pos =? 0 then Some (rev bin) else None
  | this_ch :: ascii' =>
      if this_ch =? BASE64_PAD then
        if 2 <=? quad_pos then
          if 4 <=? quad_pos + (pads + 1) then Some (rev bin)
          else a2b_loop ascii' quad_pos leftchar (pads + 1) bin
        else a2b_loop ascii' quad_pos leftchar pads bin
      else
        match table_a2b_base64 this_ch with
        | None => a2b_loop ascii' quad_pos leftchar pads bin
        | Some v =>
            if quad_pos =? 0 then a2b_loop ascii' 1 v 0 bin
            else if quad_pos =? 1 then
              a2b_loop ascii' 2 (Z.land v 15) 0
                (Z.land (Z.lor (Z.shiftl leftchar 2) (Z.shiftr v 4)) 255 :: bin)
            else if quad_pos =? 2 then
              a2b_loop ascii' 3 (Z.land v 3) 0
                (Z.land (Z.lor (Z.shiftl leftchar 4) (Z.shiftr v 2)) 255 :: bin)
            else
              a2b_loop ascii' 0 0 0
                (Z.land (Z.lor (Z.shiftl leftchar 6) v) 255 :: bin)
        end
  end.

Definition b64decode (s : pybytes) : option pybytes := a2b_loop s 0 0 0 [].

End Base64.

(** Exhaustive checks over octets, used to settle the bit identities of
    the base64 quads by computation. *)
Module Base64Check.
Import Base64.

Definition octets : list Z := List.map Z.of_nat (seq 0 256).

Definition all1 (P : Z -> bool) : bool := forallb P octets.
Definition all2 (P : Z -> Z -> bool) : bool := all1 (fun a => all1 (P a)).

(** One character of the alphabet decodes to the sextet it encodes, and
    is neither the pad nor outside ASCII. *)
Definition sextet_ok (v : Z) : bool :=
  negb (v <? 64)
  || (match table_a2b_base64 (b2a v) with Some w => w =? v | None => false end
      && negb (b2a v =? BASE64_PAD) && is_ascii (b2a v)).

(** The four sextets of a group of three octets. *)
Definition sx1 (a : Z) : Z := Z.shiftr a 2.
Definition sx2 (a b : Z) : Z := Z.lor (Z.shiftl (Z.land a 3) 4) (Z.shiftr b 4).
Definition sx3 (b c : Z) : Z := Z.lor (Z.shiftl (Z.land b 15) 2) (Z.shiftr c 6).
Definition sx4 (c : Z) : Z := Z.land c 63.

Definition in64 (v : Z) : bool := (0 <=? v) && (v <? 64).

Definition is_octet (a : Z) : Prop := 0 <= a < 256.

Definition left_pair (a b : Z) : bool :=
  in64 (sx1 a) && in64 (sx2 a b)
  && (Z.land (Z.lor (Z.shiftl (sx1 a) 2) (Z.shiftr (sx2 a b) 4)) 255 =? a)
  && (Z.land (sx2 a b) 15 =? Z.shiftr b 4).

Definition right_pair (b c : Z) : bool :=
  in64 (sx3 b c) && in64 (sx4 c)
  && (Z.land (Z.lor (Z.shiftl (Z.shiftr b 4) 4) (Z.shiftr (sx3 b c) 2)) 255 =? b)
  && (Z.land (sx3 b c) 3 =? Z.shiftr c 6)
  && (Z.land (Z.lor (Z.shiftl (Z.shiftr c 6) 6) (sx4 c)) 255 =? c).

End Base64Check.

(* ===================================================================== *)
(** ** cogs/fun: the [encode] and [decode] commands                       *)
(* ===================================================================== *)

Module Encoding.
Import Base64.

Inductive exn :=
| UnicodeEncodeError
| UnicodeDecodeError
| BinasciiError
| AttributeError.

(** [ctx.author]: [avatar] is [None] for a member without an avatar of
    their own, and [ctx.author.avatar.url] then raises. *)
Record Author := { author_name : string; avatar_url : option string }.

Record Context := { author : Author; utcnow : Z }.

Record Embed := {
  title : string;
  colour : string;
  timestamp : Z;
  fields : list (string * pystr);
  thumbnail : string;
  footer_text : string;
  footer_icon : string
}.

Inductive outcome :=
| Sent (e : Embed)
| Raised (e : exn).

(** The f-string that puts a value between code fences. *)
Definition code_block (s : pystr) : pystr :=
  [96; 96; 96; 10] ++ s ++ [10; 96; 96; 96].

(** [format(n, 'b')] for a code point [n]. *)
Fixpoint pos_bits (p : positive) : pystr :=
  match p with
  | xH => [49]
  | xO p' => pos_bits p' ++ [48]
  | xI p' => pos_bits p' ++ [49]
  end.

Definition format_b (n : Z) : pystr :=
  match n with
  | Z0 => [48]
  | Zpos p => pos_bits p
  | Zneg p => 45 :: pos_bits p
  end.

Definition parrot_logo : string :=
  "https://upload.wikimedia.org/wikipedia/commons/4/45/Parrot_Logo.png".

Definition decode (ctx : Context) (string : pystr) : outcome :=
  let base64_string := string in
  match encode_ascii base64_string with
  | None => Raised UnicodeEncodeError
  | Some base64_bytes =>
      match b64decode base64_bytes with
      | None => Raised BinasciiError
      | Some sample_string_bytes =>
          match decode_ascii sample_string_bytes with
          | None => Raised UnicodeDecodeError
          | Some sample_string =>
              match avatar_url (author ctx) with
              | None => Raised AttributeError
              | Some icon =>
                  Sent {| title := "Decoding...";
                          colour := "red";
                          timestamp := utcnow ctx;
                          fields := [("Encoded text:"%string, code_block base64_string);
                                     ("Decoded text:"%string, code_block sample_string)];
                          thumbnail := parrot_logo;
                          footer_text := author_name (author ctx);
                          footer_icon := icon |}
              end
          end
      end
  end.

Definition encode (ctx : Context) (string : pystr) : outcome :=
  let sample_string := string in
  match encode_ascii sample_string with
  | None => Raised UnicodeEncodeError
  | Some sample_string_bytes =>
      let res := concat (List.map format_b string) in
      let base64_bytes := b64encode sample_string_bytes in
      match decode_ascii base64_bytes with
      | None => Raised UnicodeDecodeError
      | Some base64_string =>
          match avatar_url (author ctx) with
          | None => Raised AttributeError
          | Some icon =>
              Sent {| title := "Encoding...";
                      colour := "red";
                      timestamp := utcnow ctx;
                      fields := [("Normal [string] text:"%string, code_block sample_string);
                                 ("Encoded [base64]:"%string, code_block base64_string);
                                 ("Encoded [binary]:"%string, code_block res)];
                      thumbnail := parrot_logo;
                      footer_text := author_name (author ctx);
                      footer_icon := icon |}
          end
      end
  end.

(** The value the embed shows under a field name. *)
Definition field_of (o : outcome) (name : string) : option pystr :=
  match o with
  | Sent e => snd <$> List.find (fun f => String.eqb (fst f) name) (fields e)
  | Raised _ => None
  end.

End Encoding.

(* ===================================================================== *)
(** ** cogs/utils/method.py: the tag handlers                             *)
(* ===================================================================== *)

Module Tags.

(** A tag document as [_create_tag] inserts it. *)
Record TagDoc := {
  id : string;
  text : string;
  count : Z;
  owner : Z;
  nsfw : bool;
  created_at : Z
}.

(** [tags[f"{ctx.guild.id}"]]: the guild's collection, in insertion
    order.  The database puts no uniqueness constraint on the [id] field. *)
Definition collection := list TagDoc.

(** A value in the place of a filter's ["id"]: a tag name, or the [tags]
    database handle imported from [utilities.database]. *)
Inductive value :=
| VStr (s : string)
| VDatabase.

Inductive exn :=
| NameError          (* a name that is bound nowhere *)
| InvalidDocument.   (* the driver cannot encode a filter value *)

Record Member := { member_id : Z; member_name : string }.

Record Context := {
  guild_id : Z;
  author_id : Z;
  author_mention : string;
  author_name : string;
  channel_nsfw : bool;
  (** [ctx.guild.get_member]: the ids of the members still in the guild *)
  guild_members : list Z
}.

Inductive content :=
| TagText (text : string)
| NsfwOnly (mention : string)
| NoTag (mention tag : string)
| AlreadyExists (mention tag : string)
| AskNsfw (mention : string)
| Created (mention : string)
| Deleted (mention : string)
| NotOwner (mention : string)
| NameExists (mention : string)
| NameChanged (mention : string)
| CannotClaim (mention : string)
| Claimed (mention tag : string)
| ConfirmTransfer (mention member : string)
| NotOnTime (mention : string)
| Transferred (mention member : string)
| Reverting (mention : string)
| NsfwSet (mention tag : string) (nsfw : bool)
| TagEmbed (tag : string) (timestamp : Z) (owner : option Z) (created_at : Z)
    (text_len : nat) (nsfw : bool) (count : Z) (claimable : bool) (footer : string)
| Pages (title : string) (lines : list (nat * string)).

Inductive action :=
| Send (c : content)              (* ctx.send *)
| Reply (c : content)             (* ctx.reply *)
| RefReply (ref : Z) (c : content) (* msg_ref.reply *)
| MsgReply (c : content).         (* msg.reply, on the bot's own prompt *)

Record result := {
  store : collection;
  out : list action;
  raised : option exn
}.

Definition done (c : collection) (o : list action) : result :=
  {| store := c; out := o; raised := None |}.

Definition raise (e : exn) (c : collection) (o : list action) : result :=
  {| store := c; out := o; raised := Some e |}.

(** *** The driver *)

Definition has_id (name : string) (d : TagDoc) : bool := String.eqb (id d) name.

Definition find_one (name : string) (c : collection) : option TagDoc :=
  List.find (has_id name) c.

(** [update_one({"id": name}, ...)]: the first match only, no upsert. *)
Fixpoint update_one (name : string) (f : TagDoc -> TagDoc) (c : collection) : collection :=
  match c with
  | [] => []
  | d :: c' => if has_id name d then f d :: c' else d :: update_one name f c'
  end.

Fixpoint remove_first (name : string) (c : collection) : collection :=
  match c with
  | [] => []
  | d :: c' => if has_id name d then c' else d :: remove_first name c'
  end.

(** [delete_one({"id": v})]: a name removes the first match; a database
    handle is not a value the driver can encode, the call raises and the
    collection stays as it is. *)
Definition delete_one (v : value) (c : collection) : exn + collection :=
  match v with
  | VStr name => inr (remove_first name c)
  | VDatabase => inl InvalidDocument
  end.

Definition insert_one (d : TagDoc) (c : collection) : collection := c ++ [d].

Definition inc_count (d : TagDoc) : TagDoc :=
  {| id := id d; text := text d; count := count d + 1; owner := owner d;
     nsfw := nsfw d; created_at := created_at d |}.

Definition set_id (name : string) (d : TagDoc) : TagDoc :=
  {| id := name; text := text d; count := count d; owner := owner d;
     nsfw := nsfw d; created_at := created_at d |}.

Definition set_text (t : string) (d : TagDoc) : TagDoc :=
  {| id := id d; text := t; count := count d; owner := owner d;
     nsfw := nsfw d; created_at := created_at d |}.

Definition set_owner (o : Z) (d : TagDoc) : TagDoc :=
  {| id := id d; text := text d; count := count d; owner := o;
     nsfw := nsfw d; created_at := created_at d |}.

Definition set_nsfw (b : bool) (d : TagDoc) : TagDoc :=
  {| id := id d; text := text d; count := count d; owner := owner d;
     nsfw := b; created_at := created_at d |}.

(** *** The handlers *)

Definition say (msg_ref : option Z) (c : content) : action :=
  match msg_ref with
  | Some r => RefReply r c
  | None => Send c
  end.

Definition _show_tag (ctx : Context) (tag : string) (msg_ref : option Z)
    (c : collection) : result :=
  let o :=
    match find_one tag c with
    | Some data =>
        if negb (nsfw data) then [say msg_ref (TagText (text data))]
        else if channel_nsfw ctx then [say msg_ref (TagText (text data))]
        else [Reply (NsfwOnly (author_mention ctx))]
    | None => [Reply (NoTag (author_mention ctx) tag)]
    end in
  done (update_one tag inc_count c) o.

(** [view_value] is what the invoker chose on the prompt ([None]: no
    answer in time), [now] the reading of [int(time())]. *)
Definition _create_tag (ctx : Context) (tag text : string)
    (view_value : option bool) (now : Z) (c : collection) : result :=
  match find_one tag c with
  | Some data => done c [Reply (AlreadyExists (author_mention ctx) tag)]
  | None =>
      let o := [Send (AskNsfw (author_mention ctx))] in
      match view_value with
      | None => raise NameError c o     (* [msg] is not bound in this function *)
      | Some v =>
          let nsfw := if v then true else false in
          done (insert_one {| id := tag; text := text; count := 0;
                              owner := author_id ctx; nsfw := nsfw;
                              created_at := now |} c)
               (o ++ [Reply (Created (author_mention ctx))])
      end
  end.

Definition _delete_tag (ctx : Context) (tag : string) (c : collection) : result :=
  match find_one tag c with
  | Some data =>
      if owner data =? author_id ctx then
        match delete_one VDatabase c with
        | inl e => raise e c []
        | inr c' => done c' [Reply (Deleted (author_mention ctx))]
        end
      else done c [Reply (NotOwner (author_mention ctx))]
  | None => done c [Reply (NoTag (author_mention ctx) tag)]
  end.

Definition _name_edit (ctx : Context) (tag name : string) (c : collection) : result :=
  match find_one name c with
  | Some exists_ => done c [Reply (NameExists (author_mention ctx))]
  | None =>
      match find_one tag c with
      | Some data =>
          if owner data =? author_id ctx then
            done (update_one tag (set_id name) c) [Reply (NameChanged (author_mention ctx))]
          else done c [Reply (NotOwner (author_mention ctx))]
      | None => done c [Reply (NoTag (author_mention ctx) tag)]
      end
  end.

Definition _text_edit (ctx : Context) (tag text : string) (c : collection) : result :=
  match find_one tag c with
  | Some data =>
      if owner data =? author_id ctx then
        done (update_one tag (set_text text) c) [Reply (NameChanged (author_mention ctx))]
      else done c [Reply (NotOwner (author_mention ctx))]
  | None => done c [Reply (NoTag (author_mention ctx) tag)]
  end.

Definition get_member (ctx : Context) (user : Z) : option Z :=
  List.find (Z.eqb user) (guild_members ctx).

Definition _claim_owner (ctx : Context) (tag : string) (c : collection) : result :=
  match find_one tag c with
  | Some data =>
      match get_member ctx (owner data) with
      | Some member => done c [Reply (CannotClaim (author_mention ctx))]
      | None =>
          done (update_one tag (set_owner (author_id ctx)) c)
               [Reply (Claimed (author_mention ctx) tag)]
      end
  | None => done c [Reply (NoTag (author_mention ctx) tag)]
  end.

Definition _transfer_owner (ctx : Context) (tag : string) (member : Member)
    (view_value : option bool) (c : collection) : result :=
  match find_one tag c with
  | Some data =>
      if negb (owner data =? author_id ctx) then
        done c [Reply (NotOwner (author_mention ctx))]
      else
        let o := [Reply (ConfirmTransfer (author_mention ctx) (member_name member))] in
        match view_value with
        | None => done c (o ++ [MsgReply (NotOnTime (author_mention ctx))])
        | Some true =>
            done (update_one tag (set_owner (member_id member)) c)
                 (o ++ [MsgReply (Transferred (author_mention ctx) (member_name member))])
        | Some false => done c (o ++ [MsgReply (Reverting (author_mention ctx))])
        end
  | None => done c [Reply (NoTag (author_mention ctx) tag)]
  end.

Definition _toggle_nsfw (ctx : Context) (tag : string) (c : collection) : result :=
  match find_one tag c with
  | Some data =>
      if negb (owner data =? author_id ctx) then
        done c [Reply (NotOwner (author_mention ctx))]
      else
        let nsfw := negb (nsfw data) in
        done (update_one tag (set_nsfw nsfw) c)
             [Reply (NsfwSet (author_mention ctx) tag nsfw)]
  | None => done c [Reply (NoTag (author_mention ctx) tag)]
  end.

Definition _view_tag (ctx : Context) (tag : string) (utcnow : Z) (c : collection) : result :=
  match find_one tag c with
  | Some data =>
      let text_len := String.length (text data) in
      let owner := get_member ctx (owner data) in
      let claimable := match owner with None => true | Some _ => false end in
      done c [Reply (TagEmbed tag utcnow owner (created_at data) text_len
                       (nsfw data) (count data) claimable (author_name ctx))]
  | None => done c []
  end.

Fixpoint page_lines (i : nat) (c : collection) : list (nat * string) :=
  match c with
  | [] => []
  | data :: c' => (i, id data) :: page_lines (S i) c'
  end.

(** A document read back from the collection is never an empty dict, so
    the "no tags yet" answer inside the loop is never given. *)
Definition _show_all_tags (ctx : Context) (c : collection) : result :=
  done c [Send (Pages "Tags" (page_lines 1 c))].

(** Every tag handler of the file, with what it gets from its caller and
    from outside. *)
Inductive tag_op :=
| OpShow (tag : string) (msg_ref : option Z)
| OpCreate (tag text : string) (view_value : option bool) (now : Z)
| OpDelete (tag : string)
| OpNameEdit (tag name : string)
| OpTextEdit (tag text : string)
| OpClaimOwner (tag : string)
| OpTransferOwner (tag : string) (member : Member) (view_value : option bool)
| OpToggleNsfw (tag : string)
| OpView (tag : string) (utcnow : Z)
| OpShowAll.

Definition run (ctx : Context) (op : tag_op) (c : collection) : result :=
  match op with
  | OpShow tag msg_ref => _show_tag ctx tag msg_ref c
  | OpCreate tag text v now => _create_tag ctx tag text v now c
  | OpDelete tag => _delete_tag ctx tag c
  | OpNameEdit tag name => _name_edit ctx tag name c
  | OpTextEdit tag text => _text_edit ctx tag text c
  | OpClaimOwner tag => _claim_owner ctx tag c
  | OpTransferOwner tag member v => _transfer_owner ctx tag member v c
  | OpToggleNsfw tag => _toggle_nsfw ctx tag c
  | OpView tag utcnow => _view_tag ctx tag utcnow c
  | OpShowAll => _show_all_tags ctx c
  end.

(** Two documents that agree on every field but [count]. *)
Definition same_but_count (d d' : TagDoc) : Prop :=
  id d' = id d /\ text d' = text d /\ owner d' = owner d
  /\ nsfw d' = nsfw d /\ created_at d' = created_at d.

Definition ids (c : collection) : list string := List.map id c.

(** Sample data for the examples: an invoker and two tags. *)
Definition ann : Context :=
  {| guild_id := 1; author_id := 7; author_mention := "<@7>"; author_name := "ann";
     channel_nsfw := false; guild_members := [7; 8] |}.

Definition hello : TagDoc :=
  {| id := "hello"; text := "hello world"; count := 3; owner := 7; nsfw := false;
     created_at := 1600000000 |}.

Definition spicy : TagDoc :=
  {| id := "spicy"; text := "..."; count := 0; owner := 8; nsfw := true;
     created_at := 1600000001 |}.

End Tags.

(* ===================================================================== *)
(** ** Python runtime: [str.lower] and [str.title] on ASCII text          *)
(* ===================================================================== *)

(** The handlers below take [lower] and [title] as parameters, so what is
    proved of them holds for Python's Unicode-aware methods.  The examples
    instantiate them with these ASCII versions. *)
Module PyStr.

Definition is_upper (a : ascii) : bool :=
  let n := nat_of_ascii a in ((65 <=? n) && (n <=? 90))%nat.

Definition is_lower (a : ascii) : bool :=
  let n := nat_of_ascii a in ((97 <=? n) && (n <=? 122))%nat.

Definition lower_ascii (a : ascii) : ascii :=
  if is_upper a then ascii_of_nat (nat_of_ascii a + 32) else a.

Definition upper_ascii (a : ascii) : ascii :=
  if is_lower a then ascii_of_nat (nat_of_ascii a - 32) else a.

Fixpoint lower (s : string) : string :=
  match s with
  | EmptyString => EmptyString
  | String a s' => String (lower_ascii a) (lower s')
  end.

(** [in_word]: the previous character was a letter. *)
Fixpoint title_from (in_word : bool) (s : string) : string :=
  match s with
  | EmptyString => EmptyString
  | String a s' =>
      let letter := is_upper a || is_lower a in
      String (if in_word then lower_ascii a else upper_ascii a) (title_from letter s')
  end.

Definition title (s : string) : string := title_from false s.

End PyStr.

(* ===================================================================== *)
(** ** cogs/fun: the [fact] command                                       *)
(* ===================================================================== *)

Module Fact.

Inductive exn := KeyError.

(** What [aiohttp.request] answers: the status and the fields of the JSON
    body. *)
Record Response := { status : Z; json : list (string * string) }.

Record Context := { author_mention : string; author_colour : Z }.

Inductive reply :=
| ReplyEmbed (title description : string) (colour : Z) (image : string)
| ReplyApiStatus (mention : string) (status : Z)
| ReplyNoFacts (mention : string).

Record result := { out : list reply; raised : option exn }.

Definition getitem (key : string) (data : list (string * string)) : option string :=
  snd <$> List.find (fun kv => String.eqb (fst kv) key) data.

Definition animals : list string := ["dog"; "cat"; "panda"; "fox"; "bird"; "koala"]%string.

Section Handler.
Variable lower title : string -> string.
(** The HTTP service, by URL. *)
Variable request : string -> Response.

Definition animal_fact (ctx : Context) (animal : string) : result :=
  let animal := lower animal in
  if existsb (String.eqb animal) animals then
    let fact_url := ("https://some-random-api.ml/facts/" ++ animal)%string in
    let image_url :=
      ("https://some-random-api.ml/img/"
         ++ (if String.eqb animal "bird" then "birb" else animal))%string in
    let response := request image_url in
    let image :=
      if status response =? 200 then
        match getitem "link" (json response) with
        | Some link => inr (Some link)
        | None => inl KeyError
        end
      else inr None in
    match image with
    | inl e => {| out := []; raised := Some e |}
    | inr image_link =>
        let response := request fact_url in
        if status response =? 200 then
          match getitem "fact" (json response) with
          | None => {| out := []; raised := Some KeyError |}
          | Some fact =>
              match image_link with
              | Some link =>
                  {| out := [ReplyEmbed (title animal ++ " fact")%string fact
                               (author_colour ctx) link];
                     raised := None |}
              | None =>
                  {| out := [ReplyApiStatus (author_mention ctx) (status response)];
                     raised := None |}
              end
          end
        else {| out := [ReplyNoFacts (author_mention ctx)]; raised := None |}
    end
  else
    (* the [if] has no [else]: the handler falls off its end *)
    {| out := []; raised := None |}.

End Handler.

(** Sample data: a service that knows every supported animal. *)
Definition service (url : string) : Response :=
  if String.prefix "https://some-random-api.ml/img/" url
  then {| status := 200; json := [("link", "https://i.example/1.png")]%string |}
  else {| status := 200; json := [("fact", "They sleep a lot.")]%string |}.

Definition bob : Context := {| author_mention := "<@9>"; author_colour := 255 |}.

End Fact.

(* ===================================================================== *)
(** ** core/Context.py: [multiple_wait_for]                               *)
(* ===================================================================== *)

Module WaitFor.

Section MultipleWaitFor.
(** The check callables, the extra keyword arguments, the coroutine
    objects [self.wait_for] returns and what [asyncio.wait] gives back
    are the framework's. *)
Context {Predicate Kwargs Awaitable Result : Type}.
Variable wait_for : string -> Predicate -> option Q -> Kwargs -> Awaitable.
(** [getattr(asyncio, name, default)] *)
Variable asyncio_getattr : string -> string -> string.
Variable asyncio_wait : list Awaitable -> option Q -> string -> Result.

(** The [events] argument: a list of pairs or a dict. *)
Inductive events_arg :=
| EventsList (l : list (string * Predicate))
| EventsDict (d : gmap string Predicate).

(** [list(d.items())] *)
Definition items (d : gmap string Predicate) : list (string * Predicate) := map_to_list d.

Definition multiple_wait_for (events : events_arg) (return_when : string)
    (timeout : option Q) (kwargs : Kwargs) : Result :=
  let events :=
    match events with
    | EventsDict d => items d        (* isinstance(events, dict) *)
    | EventsList l => l
    end in
  (* a set of coroutine objects, one for each pair *)
  let _events :=
    List.map (fun ec => wait_for (fst ec) (snd ec) timeout kwargs) events in
  asyncio_wait _events timeout (asyncio_getattr return_when "FIRST_COMPLETED").

End MultipleWaitFor.

End WaitFor.

(* ===================================================================== *)
(** ** cogs/fun: the [dial] command (the telephone relay)                 *)
(* ===================================================================== *)

Module Telephone.

Inductive exn := AttributeError.

(** A [discord.Guild] object.  [guild_ref] is the identity of the object,
    what [server is ctx.guild] compares. *)
Record Guild := { guild_ref : nat; guild_id : Z; guild_name : string }.

(** A document of the [telephone] collection, without its [_id]: the
    collection is the map from [_id] to the rest of the document. *)
Record TelDoc := {
  tel_channel : Z;
  pingrole : Z;
  memberping : Z;
  is_line_busy : bool;
  blocked : list Z
}.

Record Message := {
  content : string;
  msg_channel : Z;
  author_bot : bool;
  author_name : string;
  author_discriminator : string;
  clean_content : string
}.

(** [self.bot]: the guild cache and the channels the bot can see. *)
Record Bot := { get_guild : Z -> option Guild; get_channel : Z -> option Z }.

Record Context := { guild : Guild; channel : Z; author_mention : string }.

Inductive text :=
| SelfCall
| NoLineHere (mention : string)
| NoLineThere (mention : string) (number : Z)
| LineBusy (number : Z) (name : string)
| ChannelGone
| Blocked
| CallingTo (number : Z) (name : string)
| IncomingCall (id : Z) (name : string)
| LineInactive (id : Z) (name : string)
| Disconnected
| Connected (greeting : string)
| Relayed (name discriminator clean_content : string)
| DurationLimit.

Inductive action :=
| Send (channel : Z) (t : text)
| Reply (channel : Z) (t : text)
| Sleep (seconds : Q).

(** The telephone collection and everything done so far. *)
Record world := { tel : gmap Z TelDoc; sent : list action }.

(** [Waiting]: the handler sits in [wait_for] and the trace of events given
    to the model has ended. *)
Inductive status :=
| Returned
| Raised (e : exn)
| Waiting.

(** What reaches the handler from outside once the call is placed: the
    messages seen during the first [wait_for], the two draws of
    [random.choice], the clock when the call is connected, and for every
    turn of the loop the messages seen during its [wait_for] and the clock
    at its duration test. *)
Record Input := {
  handshake : list Message;
  greeting1 : nat;
  greeting2 : nat;
  connect_time : Q;
  ticks : list (list Message * Q)
}.

Definition emit (l : list action) (w : world) : world :=
  {| tel := tel w; sent := sent w ++ l |}.

Definition set_busy (value : bool) (d : TelDoc) : TelDoc :=
  {| tel_channel := tel_channel d; pingrole := pingrole d; memberping := memberping d;
     is_line_busy := value; blocked := blocked d |}.

(** Modelled from the spec: [telephone_update] lives in
    [utilities.database], which is not among the sources.  The handler
    calls it as [telephone_update(guild_id, 'is_line_busy', value)] to set
    the [is_line_busy] field of the guild's record; a guild without a
    record gets none. *)
Definition telephone_update (guild_id : Z) (value : bool) (w : world) : world :=
  {| tel := alter (set_busy value) guild_id (tel w); sent := sent w |}.

(** [bot.wait_for('message', check=check, timeout=60)]: the first message
    of the window that passes the check; [None] is the timeout. *)
Definition wait_for (check : Message -> bool) (window : list Message) : option Message :=
  List.find check window.

(** [random.choice(['hi', 'hello', 'heya'])] *)
Definition greeting (draw : nat) : string :=
  nth (draw mod 3) ["hi"; "hello"; "heya"]%string "hi"%string.

Definition busy (w : world) (guild_id : Z) : option bool :=
  is_line_busy <$> tel w !! guild_id.

Section Dial.

Variable lower : string -> string.
Variable bot : Bot.
Variable ctx : Context.
Variable server : Guild.

Definition check_handshake (target_channel : Z) (m : Message) : bool :=
  existsb (String.eqb (lower (content m))) ["pickup"; "hangup"]%string
  && ((msg_channel m =? channel ctx) || (msg_channel m =? target_channel)).

(** [a or b and c] is [a or (b and c)]: the bot's own messages pass when
    they are in the target channel. *)
Definition check_talk (target_channel : Z) (m : Message) : bool :=
  (msg_channel m =? target_channel)
  || ((msg_channel m =? channel ctx) && negb (author_bot m)).

(** The [except] branch of both waits. *)
Definition line_inactive (target_channel : Z) (w : world) : status * world :=
  let w := emit [Sleep (1 # 2)] w in
  let w := emit [Send target_channel
                   (LineInactive (guild_id (guild ctx)) (guild_name (guild ctx)))] w in
  match get_guild bot (guild_id server) with
  | None => (Raised AttributeError, w)
  | Some g =>
      let w := emit [Reply (channel ctx) (LineInactive (guild_id server) (guild_name g))] w in
      let w := telephone_update (guild_id (guild ctx)) false w in
      let w := telephone_update (guild_id server) false w in
      (Returned, w)
  end.

(** What one message of the call is turned into. *)
Definition relayed (target_channel : Z) (m : Message) : list action :=
  if msg_channel m =? target_channel then
    [Send (channel ctx) (Relayed (author_name m) (author_discriminator m) (clean_content m))]
  else if msg_channel m =? channel ctx then
    [Send target_channel (Relayed (author_name m) (author_discriminator m) (clean_content m))]
  else [].

(** The [while True] loop of a connected call, one tick per turn. *)
Fixpoint relay_loop (target_channel : Z) (ini : Q) (ticks : list (list Message * Q))
    (w : world) : status * world :=
  match ticks with
  | [] => (Waiting, w)
  | (window, now) :: ticks' =>
      match wait_for (check_talk target_channel) window with
      | None => line_inactive target_channel w
      | Some talk_message =>
          if String.eqb (lower (content talk_message)) "hangup" then
            let w := telephone_update (guild_id (guild ctx)) false w in
            let w := telephone_update (guild_id server) false w in
            let w := emit [Send (channel ctx) Disconnected] w in
            let w := emit [Send target_channel Disconnected] w in
            (Returned, w)
          else
            let w := emit (relayed target_channel talk_message) w in
            if Qle_bool (ini - now) 60 then
              let w := emit [Send (channel ctx) DurationLimit] w in
              let w := emit [Send target_channel DurationLimit] w in
              let w := telephone_update (guild_id (guild ctx)) false w in
              let w := telephone_update (guild_id server) false w in
              (Returned, w)
            else relay_loop target_channel ini ticks' w
      end
  end.

(** The [try] block that pings a role and a member builds a coroutine with
    [target_channel.send(...)], never awaits it and fails on
    [temp_message.delete()]; the [except] swallows that.  It sends nothing
    and has no place here.  [self_guild['_id']] is [ctx.guild.id] and
    [target_guild['_id']] is [number], by the filters of the two
    [find_one]. *)
Definition dial (inp : Input) (w : world) : status * world :=
  if Nat.eqb (guild_ref server) (guild_ref (guild ctx)) then
    (Returned, emit [Send (channel ctx) SelfCall] w)
  else
    let number := guild_id server in
    let channel := channel ctx in
    match tel w !! guild_id (guild ctx) with
    | None => (Returned, emit [Send channel (NoLineHere (author_mention ctx))] w)
    | Some self_guild =>
        match tel w !! number with
        | None => (Returned, emit [Send channel (NoLineThere (author_mention ctx) number)] w)
        | Some target_guild =>
            if is_line_busy target_guild then
              match get_guild bot number with
              | None => (Raised AttributeError, w)
              | Some g => (Returned, emit [Send channel (LineBusy number (guild_name g))] w)
              end
            else
              match get_channel bot (tel_channel target_guild) with
              | None => (Returned, emit [Send channel ChannelGone] w)
              | Some target_channel =>
                  if existsb (Z.eqb number) (blocked self_guild)
                     || existsb (Z.eqb (guild_id (guild ctx))) (blocked target_guild)
                  then (Returned, emit [Send channel Blocked] w)
                  else
                    match get_guild bot number with
                    | None => (Raised AttributeError, w)
                    | Some g =>
                        let w := emit [Send channel (CallingTo number (guild_name g))] w in
                        let w :=
                          emit [Send target_channel
                                  (IncomingCall (guild_id (guild ctx))
                                     (guild_name (guild ctx)))] w in
                        match wait_for (check_handshake target_channel) (handshake inp) with
                        | None => line_inactive target_channel w
                        | Some _talk =>
                            if String.eqb (lower (content _talk)) "hangup" then
                              let w := emit [Send channel Disconnected] w in
                              let w := emit [Send target_channel Disconnected] w in
                              let w := telephone_update (guild_id (guild ctx)) false w in
                              let w := telephone_update number false w in
                              (Returned, w)
                            else if String.eqb (lower (content _talk)) "pickup" then
                              let w := emit [Send channel
                                               (Connected (greeting (greeting1 inp)))] w in
                              let w := emit [Send target_channel
                                               (Connected (greeting (greeting2 inp)))] w in
                              let w := telephone_update (guild_id (guild ctx)) true w in
                              let w := telephone_update number true w in
                              let ini := (connect_time inp + 120)%Q in
                              relay_loop target_channel ini (ticks inp) w
                            else (Returned, w)
                        end
                    end
              end
        end
    end.

(** The call is placed: [dial] got past every refusal and has sent
    "Calling to ..." and "Incoming call ...". *)
Definition call_placed (w : world) (target_channel : Z) (g : Guild) : Prop :=
  guild_ref server <> guild_ref (guild ctx)
  /\ exists self_guild target_guild,
      tel w !! guild_id (guild ctx) = Some self_guild
      /\ tel w !! guild_id server = Some target_guild
      /\ is_line_busy target_guild = false
      /\ get_channel bot (tel_channel target_guild) = Some target_channel
      /\ existsb (Z.eqb (guild_id server)) (blocked self_guild) = false
      /\ existsb (Z.eqb (guild_id (guild ctx))) (blocked target_guild) = false
      /\ get_guild bot (guild_id server) = Some g.

(** The two messages of a placed call. *)
Definition ringing (target_channel : Z) (g : Guild) : list action :=
  [Send (channel ctx) (CallingTo (guild_id server) (guild_name g));
   Send target_channel (IncomingCall (guild_id (guild ctx)) (guild_name (guild ctx)))].


(** A turn of the loop that relays a message and goes on: a message other
    than "hangup" passes the check and the duration test fails. *)
Definition goes_on (target_channel : Z) (ini : Q) (tick : list Message * Q) : Prop :=
  exists m, wait_for (check_talk target_channel) (fst tick) = Some m
            /\ lower (content m) <> "hangup"%string
            /\ ~ (ini - snd tick <= 60)%Q.

(** What a turn of the loop relays. *)
Definition relayed_tick (target_channel : Z) (tick : list Message * Q) : list action :=
  match wait_for (check_talk target_channel) (fst tick) with
  | Some m => relayed target_channel m
  | None => []
  end.

(** C3 as the spec states it: both records exist and the target's line is
    busy, so the handler answers "Line busy!", sends nothing else and
    leaves the collection alone. *)
Definition line_busy_claim (inp : Input) (w : world) : Prop :=
  is_Some (tel w !! guild_id (guild ctx)) ->
  (exists target_guild,
      tel w !! guild_id server = Some target_guild /\ is_line_busy target_guild = true) ->
  exists name,
    dial inp w = (Returned, emit [Send (channel ctx) (LineBusy (guild_id server) name)] w).

End Dial.

(** Sample data: two guilds with a line each, and a bot that is in both. *)
Definition home : Guild := {| guild_ref := 1; guild_id := 100; guild_name := "Home" |}.
Definition away : Guild := {| guild_ref := 2; guild_id := 200; guild_name := "Away" |}.

Definition parrot : Bot :=
  {| get_guild := fun id => if id =? 100 then Some home
                            else if id =? 200 then Some away else None;
     get_channel := fun id => if (id =? 11) || (id =? 22) then Some id else None |}.

Definition caller : Context :=
  {| guild := home; channel := 11; author_mention := "<@7>" |}.

Definition line (ch : Z) (b : bool) : TelDoc :=
  {| tel_channel := ch; pingrole := 0; memberping := 0; is_line_busy := b; blocked := [] |}.

Definition idle : world :=
  {| tel := <[100 := line 11 false]> (<[200 := line 22 false]> ∅); sent := [] |}.

(** Home's own line is busy: another guild has called it. *)
Definition engaged : world :=
  {| tel := <[100 := line 11 true]> (<[200 := line 22 false]> ∅); sent := [] |}.

Definition msg (text : string) (ch : Z) : Message :=
  {| content := text; msg_channel := ch; author_bot := false; author_name := "ann";
     author_discriminator := "0001"; clean_content := text |}.

Definition silence : Input :=
  {| handshake := [msg "hello?" 22]; greeting1 := 0; greeting2 := 1;
     connect_time := 0; ticks := [] |}.

(** Away's line is busy. *)
Definition engaged_away : world :=
  {| tel := <[100 := line 11 false]> (<[200 := line 22 true]> ∅); sent := [] |}.

(** A call that is picked up; the second relayed message comes 61 seconds
    after the connection. *)
Definition chat : Input :=
  {| handshake := [msg "hello?" 22; msg "PickUp" 22]; greeting1 := 0; greeting2 := 1;
     connect_time := 1000;
     ticks := [([msg "hi" 11], 1010); ([msg "hey" 22], 1061); ([msg "late" 11], 1062)]%Q |}.

(** A call that is picked up and hung up by the callee. *)
Definition short_chat : Input :=
  {| handshake := [msg "pickup" 22]; greeting1 := 2; greeting2 := 0;
     connect_time := 1000;
     ticks := [([msg "hi" 11], 1005); ([msg "HANGUP" 22], 1010)]%Q |}.

End Telephone.

(* ===================================================================== *)
(** ** cogs/utils/method.py: which tag handlers ask for the owner          *)
(* ===================================================================== *)

Module TagGuard.
Import Tags.

(** The handlers that compare [data["owner"]] with [ctx.author.id] before
    they write, with the tag they are asked to change. *)
Definition owner_only (op : tag_op) : option string :=
  match op with
  | OpDelete tag => Some tag
  | OpNameEdit tag _ => Some tag
  | OpTextEdit tag _ => Some tag
  | OpTransferOwner tag _ _ => Some tag
  | OpToggleNsfw tag => Some tag
  | _ => None
  end.

(** [ctx] seen by another invoker in another channel. *)
Definition bea : Context :=
  {| guild_id := 1; author_id := 8; author_mention := "<@8>"; author_name := "bea";
     channel_nsfw := true; guild_members := [7; 8] |}.

End TagGuard.

(* ===================================================================== *)
(** ** cogs/utils/method.py: the TODO handlers                             *)
(* ===================================================================== *)

Module Todo.

(** A document of [todo[f"{ctx.author.id}"]], the invoker's own collection;
    the handlers below take and return that collection. *)
Record TodoDoc := { id : string; text : string; time : Z }.

Definition collection := list TodoDoc.

Inductive exn := NameError.

Record Context := { author_id : Z; author_mention : string }.

Inductive content :=
| AlreadyExists (mention name : string)
| Created (mention : string)
| NameChanged (mention name new_name : string)
| Updated (mention name : string)
| NoTodo (mention name : string)
| Shown (id text : string) (time : Z)
| Pages (title : string) (lines : list (nat * string)).

Inductive action :=
| Reply (c : content)
| Send (c : content).

Record result := { store : collection; out : list action; raised : option exn }.

Definition done (c : collection) (o : list action) : result :=
  {| store := c; out := o; raised := None |}.

Definition raise (e : exn) (c : collection) (o : list action) : result :=
  {| store := c; out := o; raised := Some e |}.

Definition has_id (name : string) (d : TodoDoc) : bool := String.eqb (id d) name.

Definition find_one (name : string) (c : collection) : option TodoDoc :=
  List.find (has_id name) c.

Fixpoint update_one (name : string) (f : TodoDoc -> TodoDoc) (c : collection) : collection :=
  match c with
  | [] => []
  | d :: c' => if has_id name d then f d :: c' else d :: update_one name f c'
  end.

Definition insert_one (d : TodoDoc) (c : collection) : collection := c ++ [d].

Definition set_id (name : string) (d : TodoDoc) : TodoDoc :=
  {| id := name; text := text d; time := time d |}.

(** [now] is the reading of [int(time())]. *)
Definition _create_todo (ctx : Context) (name text : string) (now : Z)
    (c : collection) : result :=
  match find_one name c with
  | Some data => done c [Reply (AlreadyExists (author_mention ctx) name)]
  | None =>
      done (insert_one {| id := name; text := text; time := now |} c)
           [Reply (Created (author_mention ctx))]
  end.

Definition _update_todo_name (ctx : Context) (name new_name : string)
    (c : collection) : result :=
  match find_one name c with
  | Some data =>
      match find_one new_name c with
      | Some new_data => done c [Reply (AlreadyExists (author_mention ctx) new_name)]
      | None =>
          done (update_one name (set_id new_name) c)
               [Reply (NameChanged (author_mention ctx) name new_name)]
      end
  | None => done c [Reply (NoTodo (author_mention ctx) name)]
  end.

(** The update document names [new_name], which is not bound in this
    function: building it raises before [update_one] is called. *)
Definition _update_todo_text (ctx : Context) (name text : string)
    (c : collection) : result :=
  match find_one name c with
  | Some data => raise NameError c []
  | None => done c [Reply (NoTodo (author_mention ctx) name)]
  end.

Fixpoint page_lines (i : nat) (c : collection) : list (nat * string) :=
  match c with
  | [] => []
  | data :: c' => (i, id data) :: page_lines (S i) c'
  end.

Definition _list_todo (ctx : Context) (c : collection) : result :=
  done c [Send (Pages "Your Pending Tasks" (page_lines 1 c))].

Definition _show_todo (ctx : Context) (name : string) (c : collection) : result :=
  match find_one name c with
  | Some data => done c [Reply (Shown (id data) (text data) (time data))]
  | None => done c [Reply (NoTodo (author_mention ctx) name)]
  end.

(** Every TODO handler of the file, with what it gets from its caller and
    from the clock. *)
Inductive todo_op :=
| OpCreate (name text : string) (now : Z)
| OpUpdateName (name new_name : string)
| OpUpdateText (name text : string)
| OpList
| OpShow (name : string).

Definition run (ctx : Context) (op : todo_op) (c : collection) : result :=
  match op with
  | OpCreate name text now => _create_todo ctx name text now c
  | OpUpdateName name new_name => _update_todo_name ctx name new_name c
  | OpUpdateText name text => _update_todo_text ctx name text c
  | OpList => _list_todo ctx c
  | OpShow name => _show_todo ctx name c
  end.

Definition ids (c : collection) : list string := List.map id c.

(** Sample data for the examples. *)
Definition cy : Context := {| author_id := 9; author_mention := "<@9>" |}.

Definition milk : TodoDoc := {| id := "milk"; text := "buy milk"; time := 1600000100 |}.

Definition rent : TodoDoc := {| id := "rent"; text := "pay rent"; time := 1600000200 |}.

End Todo.

(* ===================================================================== *)
(** ** What the lenient base64 decoder reads                               *)
(* ===================================================================== *)

Module Base64Lenient.
Import Base64.

(** The characters [a2b_loop] does not skip: the pad character and the
    sixty-four characters of the alphabet. *)
Definition is_b64_char (c : Z) : bool :=
  (c =? BASE64_PAD)
  || match table_a2b_base64 c with Some _ => true | None => false end.

(** The invoker of the examples. *)
Definition dee : Encoding.Context :=
  {| Encoding.author := {| Encoding.author_name := "dee";
                           Encoding.avatar_url := Some "d.png"%string |};
     Encoding.utcnow := 0 |}.

End Base64Lenient.

(* ===================================================================== *)
(** ** cogs/fun/__init__.py: the two requests of [fact]                    *)
(* ===================================================================== *)

Module FactUrls.
Import Fact.

(** The two URLs [animal_fact] builds from the lowered animal name. *)
Definition fact_url (animal : string) : string :=
  ("https://some-random-api.ml/facts/" ++ animal)%string.

Definition image_url (animal : string) : string :=
  ("https://some-random-api.ml/img/"
     ++ (if String.eqb animal "bird" then "birb" else animal))%string.

(** Sample data: a service whose image endpoint is down. *)
Definition no_images (url : string) : Response :=
  if String.prefix "https://some-random-api.ml/img/" url
  then {| status := 404; json := [] |}
  else {| status := 200; json := [("fact", "They sleep a lot.")]%string |}.

End FactUrls.

(* ===================================================================== *)
(** ** cogs/fun/__init__.py: what a call may touch                         *)
(* ===================================================================== *)

Module TelephoneFrame.
Import Telephone.

(** The records of [w'] are those of [w] up to the [is_line_busy] field,
    and outside the guilds [a] and [b] they are the same records. *)
Definition same_but_busy (a b : Z) (w w' : world) : Prop :=
  forall k,
    set_busy false <$> tel w' !! k = set_busy false <$> tel w !! k
    /\ (k <> a -> k <> b -> tel w' !! k = tel w !! k).

(** The channel of the line of guild [number], as [dial] finds it:
    [bot.get_channel(target_guild['channel'])]. *)
Definition line_channel (bot : Bot) (w : world) (number : Z) : option Z :=
  match tel w !! number with
  | Some target_guild => get_channel bot (tel_channel target_guild)
  | None => None
  end.

(** An action that posts nowhere but in one of the channels [chans]. *)
Definition addressed (chans : Z -> Prop) (a : action) : Prop :=
  match a with
  | Send ch _ => chans ch
  | Reply ch _ => chans ch
  | Sleep _ => True
  end.

(** The callee hangs up instead of picking up. *)
Definition refused : Input :=
  {| handshake := [msg "who?" 22; msg "Hangup" 22; msg "pickup" 22];
     greeting1 := 0; greeting2 := 0; connect_time := 0; ticks := [] |}.


End TelephoneFrame.

(* ===================================================================== *)
(** ** events/on_cmd.py: the command counter and the error handler         *)
(* ===================================================================== *)

Module OnCmd.

Record Command := {
  qualified_name : string;
  aliases : list string;
  signature : string;
  has_on_error : bool          (* [hasattr(ctx.command, "on_error")] *)
}.

Record Context := { command : Command; clean_prefix : string; author_bot : bool }.

(** *** [on_command] *)

(** The [cmd_count] collection: the map from [_id] to the [count] field. *)
Definition cmd_count := gmap string Z.

(** [update_one({"_id": name}, {"$inc": {"count": 1}}, upsert=True)] *)
Definition inc_upsert (name : string) (c : cmd_count) : cmd_count :=
  partial_alter (fun o => Some (default 0 o + 1)) name c.

Definition on_command (ctx : Context) (c : cmd_count) : cmd_count :=
  if author_bot ctx then c
  else inc_upsert (qualified_name (command ctx)) c.

(** The listener run once for every invocation of a log, oldest first. *)
Definition on_commands (log : list Context) (c : cmd_count) : cmd_count :=
  fold_left (fun c ctx => on_command ctx c) log c.

Definition count_of (name : string) (c : cmd_count) : Z := default 0 (c !! name).

(** The invocations of a log that are counted for [name]. *)
Definition counted (name : string) (ctx : Context) : bool :=
  negb (author_bot ctx) && String.eqb (qualified_name (command ctx)) name.

(** *** [on_command_error] *)

(** The subclasses of [commands.BadArgument] the handler names. *)
Inductive bad_argument :=
| MessageNotFound
| MemberNotFound
| UserNotFound
| ChannelNotFound
| RoleNotFound
| EmojiNotFound
| PlainBadArgument.

(** A role as the role checks take it: a name or an id. *)
Inductive role :=
| RoleName (name : string)
| RoleId (id : Z).

(** The errors the handler tells apart.  [str] is what [f"{error}"]
    gives, for [ParrotCheckFailure] and the members of [CheckAnyFailure]
    after [format(ctx=ctx)].  [ParrotCheckFailure] is defined in
    [utilities.exceptions], outside these sources; it is taken as a class
    that none of the earlier branches matches.  [Other] is any error of a
    class the handler does not name. *)
Inductive error :=
| CommandNotFound
| DiscordNotFound
| DiscordForbidden
| PrivateMessageOnly
| NotOwner
| BotMissingPermissions (missing_permissions : list string)
| CommandOnCooldown (retry_after : Q)
| MissingPermissions (missing_permissions : list string)
| MissingRole (missing_role : role)
| MissingAnyRole (missing_roles : list role)
| NSFWChannelRequired
| BadArgument (kind : bad_argument) (str : string)
| MissingRequiredArgument
| BadUnionArgument
| TooManyArguments
| BadLiteralArgument (literals : list string)
| MaxConcurrencyReached
| ParrotCheckFailure (str : string)
| CheckAnyFailure (errors : list string)
| TimeoutError
| CommandInvokeError (original : error)
| Other (str : string).

Inductive exn :=
| TypeError
| AttributeError      (* [msg.delete] on a [msg] that is [None] *)
| Reraised (e : error).

Record Embed := { title : string; description : string; image : option string }.

Definition QUESTION_MARK : string := "❓".

Definition framed (s : string) : string :=
  (QUESTION_MARK ++ " " ++ s ++ " " ++ QUESTION_MARK)%string.

(** [getattr(error, "original", error)] *)
Definition unwrap (e : error) : error :=
  match e with
  | CommandInvokeError original => original
  | _ => e
  end.

Definition ignore (e : error) : bool :=
  match e with
  | CommandNotFound | DiscordNotFound | DiscordForbidden | PrivateMessageOnly | NotOwner => true
  | _ => false
  end.

(** [s.replace(old, new)], scanning from the left; [n] bounds the scan
    by the length of [s]. *)
Fixpoint replace_from (n : nat) (old new s : string) : string :=
  match n with
  | O => s
  | S n' =>
      if String.prefix old s then
        (new ++ replace_from n' old new
                  (String.substring (String.length old)
                     (String.length s - String.length old) s))%string
      else
        match s with
        | EmptyString => EmptyString
        | String c s' => String c (replace_from n' old new s')
        end
  end.

Definition replace (old new s : string) : string :=
  replace_from (String.length s) old new s.

Definition permission_name (perm : string) : string :=
  PyStr.title (replace "guild" "server" (replace "_" " " perm)).

(** The two layouts of a list of names: [sep] joins all names but the
    last when there are more than two. *)
Definition fmt_names (sep : string) (missing : list string) : string :=
  if (2 <? length missing)%nat then
    (String.concat sep (removelast missing) ++ ", and " ++ List.last missing "")%string
  else String.concat " and " missing.

(** [list(error.missing_role)]: the characters of a name; an id is not
    iterable ([None]: [TypeError]). *)
Definition list_of_role (r : role) : option (list string) :=
  match r with
  | RoleName name =>
      Some (List.map (fun a => String a EmptyString) (list_ascii_of_string name))
  | RoleId _ => None
  end.

(** [sep.join(items)] wants strings ([None]: [TypeError]). *)
Fixpoint names_of (items : list role) : option (list string) :=
  match items with
  | [] => Some []
  | RoleName name :: items' =>
      match names_of items' with
      | Some l => Some (name :: l)
      | None => None
      end
  | RoleId _ :: _ => None
  end.

Definition str_of_role (r : role) : string :=
  match r with
  | RoleName name => name
  | RoleId id => pretty id
  end.

Definition fmt_roles (missing : list role) : option string :=
  if (2 <? length missing)%nat then
    match names_of (removelast missing) with
    | Some init =>
        Some (String.concat "**, **" init ++ ", and "
                ++ str_of_role (List.last missing (RoleName "")))%string
    | None => None
    end
  else
    match names_of missing with
    | Some l => Some (String.concat " and " l)
    | None => None
    end.

Definition need_roles (fmt : string) : string :=
  ("You need the the following role(s) to use the command```" ++ String (ascii_of_nat 10) fmt ++ "```")%string.

(** The branch for [commands.BadArgument]: the named subclasses set a
    description and a title of their own, and the two assignments after
    the chain replace both. *)
Definition bad_argument_embed (kind : bad_argument) (str : string) : Embed :=
  let e := {| title := ""; description := ""; image := None |} in
  let e :=
    match kind with
    | MessageNotFound =>
        {| title := framed "Message Not Found";
           description := "Message ID/Link you provied is either invalid or deleted";
           image := image e |}
    | MemberNotFound =>
        {| title := framed "Member Not Found";
           description := "Member ID/Mention/Name you provided is invalid or bot can not see that Member";
           image := image e |}
    | UserNotFound =>
        {| title := framed "User Not Found";
           description := "User ID/Mention/Name you provided is invalid or bot can not see that User";
           image := image e |}
    | ChannelNotFound =>
        {| title := framed "Channel Not Found";
           description := "Channel ID/Mention/Name you provided is invalid or bot can not see that Channel";
           image := image e |}
    | RoleNotFound =>
        {| title := framed "Role Not Found";
           description := "Role ID/Mention/Name you provided is invalid or bot can not see that Role";
           image := image e |}
    | EmojiNotFound =>
        {| title := framed "Emoji Not Found";
           description := "Emoji ID/Name you provided is invalid or bot can not see that Emoji";
           image := image e |}
    | PlainBadArgument => e
    end in
  let e := {| title := title e; description := str; image := image e |} in
  {| title := framed "Bad Argument"; description := description e; image := image e |}.

(** The [if]/[elif] chain: the embed and whether the command's cooldown
    is reset, or the exception the branch raises. *)
Definition classify (ctx : Context) (error : error) : exn + (Embed * bool) :=
  let nl := String (ascii_of_nat 10) EmptyString in
  match error with
  | BotMissingPermissions missing_permissions =>
      let fmt := fmt_names ", " (List.map permission_name missing_permissions) in
      inr ({| title := framed "Bot Missing permissions";
              description :=
                ("Please provide the following permission(s) to the bot.```"
                   ++ nl ++ fmt ++ "```")%string;
              image := None |}, false)
  | CommandOnCooldown retry_after =>
      inr ({| title := framed "Command On Cooldown";
              description :=
                ("You are on command cooldown, please retry in **"
                   ++ pretty (Qceiling retry_after) ++ "**s")%string;
              image := None |}, false)
  | MissingPermissions missing_permissions =>
      let fmt := fmt_names "**, **" (List.map permission_name missing_permissions) in
      inr ({| title := framed "Missing permissions";
              description :=
                ("You need the following permission(s) to the run the command.```"
                   ++ nl ++ fmt ++ "```")%string;
              image := None |}, true)
  | MissingRole missing_role =>
      match list_of_role missing_role with
      | None => inl TypeError
      | Some missing =>
          inr ({| title := framed "Missing Role";
                  description := need_roles (fmt_names "**, **" missing);
                  image := None |}, true)
      end
  | MissingAnyRole missing_roles =>
      match fmt_roles missing_roles with
      | None => inl TypeError
      | Some fmt =>
          inr ({| title := framed "Missing Role";
                  description := need_roles fmt;
                  image := None |}, true)
      end
  | NSFWChannelRequired =>
      inr ({| title := framed "NSFW Channel Required";
              description :=
                "This command will only run in NSFW marked channel. https://i.imgur.com/oe4iK5i.gif";
              image := Some "https://i.imgur.com/oe4iK5i.gif"%string |}, true)
  | BadArgument kind str => inr (bad_argument_embed kind str, true)
  | MissingRequiredArgument | BadUnionArgument | TooManyArguments =>
      let command := command ctx in
      inr ({| title := framed "Invalid Syntax";
              description :=
                ("Please use proper syntax.```" ++ nl ++ clean_prefix ctx
                   ++ qualified_name command
                   ++ (match aliases command with [] => "" | _ => "|" end)
                   ++ String.concat "|" (aliases command)
                   ++ " " ++ signature command ++ "```")%string;
              image := None |}, true)
  | BadLiteralArgument literals =>
      inr ({| title := framed "Invalid Literal(s)";
              description :=
                ("Please use proper Literals."
                   ++ "Literal should be any one of the following: `"
                   ++ String.concat "`, `" literals ++ "`")%string;
              image := None |}, false)
  | MaxConcurrencyReached =>
      inr ({| title := framed "Max Concurrenry Reached";
              description :=
                "This command is already running in this server/channel by you. You have wait for it to finish";
              image := None |}, false)
  | ParrotCheckFailure str =>
      inr ({| title := framed "Unexpected Error"; description := str; image := None |}, true)
  | CheckAnyFailure errors =>
      inr ({| title := framed "Unexpected Error";
              description := String.concat (" or" ++ nl) errors;
              image := None |}, true)
  | TimeoutError =>
      inr ({| title := framed "Timeout Error";
              description := "Command took too long to respond";
              image := None |}, false)
  | _ =>
      inr ({| title := framed "Well this is embarrassing!";
              description :=
                ("For some reason **" ++ qualified_name (command ctx)
                   ++ "** is not working. If possible report this error.")%string;
              image := None |}, false)
  end.

(** What the handler has done when it is through. *)
Record result := {
  answer : option Embed;        (* the embed handed to [ctx.reply] *)
  cooldown_reset : bool;
  answer_deleted : bool;        (* [msg.delete(delay=0)] on a message *)
  raised : option exn
}.

Definition nothing : result :=
  {| answer := None; cooldown_reset := false; answer_deleted := false; raised := None |}.

(** [replied]: [ctx.reply] returned the message it posted; it returns
    [None] when [Context.send] finds the bot without Send Messages or Embed
    Links and tells the author so in a direct message.  [deleted]: the
    invoking message is deleted within the ten seconds of the [wait_for].
    The [else] of the [try] then calls [msg.delete], which fails on [None];
    the [raise error] of the [finally] replaces that failure. *)
Definition on_command_error (ctx : Context) (error : error) (replied deleted : bool)
  : result :=
  if has_on_error (command ctx) then nothing
  else
    let error := unwrap error in
    if ignore error then nothing
    else
      match classify ctx error with
      | inl e =>
          {| answer := None; cooldown_reset := false; answer_deleted := false;
             raised := Some e |}
      | inr (ERROR_EMBED, reset) =>
          {| answer := Some ERROR_EMBED;
             cooldown_reset := reset;
             answer_deleted := deleted && replied;
             raised :=
               if String.eqb (title ERROR_EMBED) (framed "Well this is embarrassing!")
               then Some (Reraised error)
               else if deleted && negb replied then Some AttributeError
               else None |}
      end.


(** Sample data. *)
Definition ping : Command :=
  {| qualified_name := "ping"; aliases := []; signature := ""; has_on_error := false |}.

Definition by_user (c : Command) : Context :=
  {| command := c; clean_prefix := "$"; author_bot := false |}.

Definition by_bot (c : Command) : Context :=
  {| command := c; clean_prefix := "$"; author_bot := true |}.

End OnCmd.

(* ===================================================================== *)
(** ** core/Context.py: [entry_to_code] and [indented_entry_to_code]       *)
(* ===================================================================== *)

Module ContextCode.

(** A Python [str] as the list of its code points; the entries are pairs
    of strings. *)
Definition pystr := list Z.

Inductive exn := ValueError.

(** What the method hands to [self.send], or the exception it raises
    before that. *)
Inductive outcome :=
| Send (content : pystr)
| Raised (e : exn).

(** [max(len(str(a)) for a, b in entries)]: [None] is the [ValueError] of
    [max] on an empty sequence. *)
Definition longer (m : nat) (e : pystr * pystr) : nat := Nat.max m (length (fst e)).

Definition max_len (entries : list (pystr * pystr)) : option nat :=
  match entries with
  | [] => None
  | e :: es => Some (fold_left longer es (length (fst e)))
  end.

(** [f"{name:<{width}}"] and [f"{name:>{width}}"]: spaces up to [width],
    nothing cut. *)
Definition ljust (width : nat) (name : pystr) : pystr :=
  name ++ repeat 32 (width - length name).

Definition rjust (width : nat) (name : pystr) : pystr :=
  repeat 32 (width - length name) ++ name.

(** ["\n".join(output)] *)
Fixpoint join (sep : pystr) (output : list pystr) : pystr :=
  match output with
  | [] => []
  | [x] => x
  | x :: output' => x ++ sep ++ join sep output'
  end.

Definition fence : pystr := [96; 96; 96].

Definition entry_to_code (entries : list (pystr * pystr)) : outcome :=
  match max_len entries with
  | None => Raised ValueError
  | Some width =>
      let output :=
        [fence]
          ++ List.map (fun e => ljust width (fst e) ++ [58; 32] ++ snd e) entries
          ++ [fence] in
      Send (join [10] output)
  end.

Definition indented_entry_to_code (entries : list (pystr * pystr)) : outcome :=
  match max_len entries with
  | None => Raised ValueError
  | Some width =>
      let output :=
        [fence]
          ++ List.map (fun e => [8203] ++ rjust width (fst e) ++ [58; 32] ++ snd e) entries
          ++ [fence] in
      Send (join [10] output)
  end.

(** A line whose name column is [width] wide: the name, spaces, then
    [": "] and the entry. *)
Definition left_aligned (width : nat) (e : pystr * pystr) (line : pystr) : Prop :=
  exists pad,
    line = (fst e ++ pad) ++ [58; 32] ++ snd e
    /\ length (fst e ++ pad) = width
    /\ Forall (fun c => c = 32) pad.

(** The same with the spaces before the name, after a zero-width space. *)
Definition right_aligned (width : nat) (e : pystr * pystr) (line : pystr) : Prop :=
  exists pad,
    line = [8203] ++ (pad ++ fst e) ++ [58; 32] ++ snd e
    /\ length (pad ++ fst e) = width
    /\ Forall (fun c => c = 32) pad.

End ContextCode.

(* ===================================================================== *)
(** ** cogs/owner/super_owner.py: [reportuser]                             *)
(* ===================================================================== *)

Module SuperOwner.

Definition pystr := list Z.

Inductive exn := AttributeError.

Record Message := { msg_author : Z; msg_channel : Z; content : string }.

Record Context := { author : Z; channel : Z; author_mention : string }.

(** The cog object: [self.count] and [self.owner], the cached user. *)
Record Owner := { count : nat; owner : option Z }.

Inductive action :=
| Ask (mention : string)
| NotOnTime (mention : string)
| Reported (mention : string)
| OwnerSend (user : Z) (mention : string) (text : pystr).

Record result := { self' : Owner; out : list action; raised : option exn }.

Definition OWNER_ID : Z := 741614468546560092.

Section ReportUser.

Variable upper : string -> string.
(** [self.bot.get_user]: the user cache, [None] for a user the bot does
    not see. *)
Variable get_user : Z -> option Z.

Definition check (ctx : Context) (m : Message) : bool :=
  (msg_author m =? author ctx) && (msg_channel m =? channel ctx).

(** [window]: the messages seen during the 60 seconds of the [wait_for]. *)
Definition reportuser (self : Owner) (ctx : Context) (text : pystr)
    (window : list Message) : result :=
  let self :=
    match owner self with
    | None => {| count := count self; owner := get_user OWNER_ID |}
    | Some _ => self
    end in
  let o := [Ask (author_mention ctx)] in
  match List.find (check ctx) window with
  | None => {| self' := self; out := o ++ [NotOnTime (author_mention ctx)]; raised := None |}
  | Some msg =>
      if String.eqb (upper (content msg)) "YES" then
        let o := o ++ [Reported (author_mention ctx)] in
        match owner self with
        | None => {| self' := self; out := o; raised := Some AttributeError |}
        | Some user =>
            {| self' := self;
               out := o ++ [OwnerSend user (author_mention ctx) (firstn 1000%nat text)];
               raised := None |}
        end
      else {| self' := self; out := o; raised := None |}
  end.

End ReportUser.

(** Sample data: a fresh cog, an invoker, and a bot that does not see the
    owner. *)
Definition fresh : Owner := {| count := 0; owner := None |}.

Definition eve : Context := {| author := 5; channel := 50; author_mention := "<@5>" |}.

Definition nobody (id : Z) : option Z := None.

Definition everybody (id : Z) : option Z := Some id.

Fixpoint upper (s : string) : string :=
  match s with
  | EmptyString => EmptyString
  | String a s' => String (PyStr.upper_ascii a) (upper s')
  end.

End SuperOwner.

(* ===================================================================== *)
(** ** cogs/fun/__init__.py: how a connected call ends                     *)
(* ===================================================================== *)

Module TelephoneExits.
Import Telephone.

Section Exits.

Variable lower : string -> string.
Variable bot : Bot.
Variable ctx : Context.
Variable server : Guild.


(** C2 as the spec states it: in a connected call, once the clock has
    reached the duration limit at some turn of the loop, the handler sends
    the "maximum limit" notice to both channels as the last thing it sends,
    frees both lines and returns. *)
Definition duration_limit_claim (inp : Input) (w : world) (target_channel : Z) : Prop :=
  forall g pick pre window now rest,
    call_placed bot ctx server w target_channel g ->
    wait_for (check_handshake lower ctx target_channel) (handshake inp) = Some pick ->
    lower (content pick) = "pickup"%string ->
    ticks inp = pre ++ (window, now) :: rest ->
    Forall (goes_on lower ctx target_channel (connect_time inp + 120)) pre ->
    (connect_time inp + 120 - now <= 60)%Q ->
    exists w' before,
      dial lower bot ctx server inp w = (Returned, w')
      /\ sent w' = before ++ [Send (channel ctx) DurationLimit;
                              Send target_channel DurationLimit]
      /\ busy w' (guild_id (guild ctx)) = Some false
      /\ busy w' (guild_id server) = Some false.


End Exits.


(** A call that is picked up, relays one message and then falls silent:
    the second turn's 60 seconds run out 70 seconds after the connection. *)
Definition quiet_after_limit : Input :=
  {| handshake := [msg "pickup" 22]; greeting1 := 0; greeting2 := 0;
     connect_time := 1000;
     ticks := [([msg "hi" 11], 1010); ([], 1070)]%Q |}.

(** The same call, hung up 70 seconds after the connection. *)
Definition hangup_after_limit : Input :=
  {| handshake := [msg "pickup" 22]; greeting1 := 0; greeting2 := 0;
     connect_time := 1000;
     ticks := [([msg "hi" 11], 1010); ([msg "hangup" 22], 1070)]%Q |}.

(** A connected call with nothing said yet. *)
Definition just_connected : Input :=
  {| handshake := [msg "pickup" 22]; greeting1 := 0; greeting2 := 0;
     connect_time := 1000; ticks := [] |}.

(** The bot after it was removed from Away during the call: the guild is
    gone from its cache, the channels are as before. *)
Definition kicked : Bot :=
  {| get_guild := fun id => if id =? 100 then Some home else None;
     get_channel := get_channel parrot |}.

End TelephoneExits.

(* ===================================================================== *)
(** ** cogs/utils/method.py: [_create_tag] and another writer               *)
(* ===================================================================== *)

Module TagRace.
Import Tags.

(** [_create_tag] with its two database calls apart.  [find_one] reads
    the collection as it is when the handler starts, [c_find]; the handler
    then sends the prompt and waits for the invoker's button press; and
    [insert_one] writes to the collection as it is by then, [c_insert].  A
    refusal returns before the wait. *)
Definition _create_tag_between (ctx : Context) (tag text : string)
    (view_value : option bool) (now : Z) (c_find c_insert : collection) : result :=
  match find_one tag c_find with
  | Some data => done c_find [Reply (AlreadyExists (author_mention ctx) tag)]
  | None =>
      let o := [Send (AskNsfw (author_mention ctx))] in
      match view_value with
      | None => raise NameError c_insert o
      | Some v =>
          let nsfw := if v then true else false in
          done (insert_one {| id := tag; text := text; count := 0;
                              owner := author_id ctx; nsfw := nsfw;
                              created_at := now |} c_insert)
               (o ++ [Reply (Created (author_mention ctx))])
      end
  end.

(** C9 as the spec states it, for a creation: ids that are distinct
    before the operation, at its lookup and up to its write, are distinct
    after it. *)
Definition unique_ids_claim (ctx : Context) (tag text : string)
    (view_value : option bool) (now : Z) (c_find c_insert : collection) : Prop :=
  NoDup (ids c_find) ->
  NoDup (ids c_insert) ->
  NoDup (ids (store (_create_tag_between ctx tag text view_value now c_find c_insert))).

(** A second invoker of the guild. *)
Definition bea : Context :=
  {| guild_id := 1; author_id := 8; author_mention := "<@8>"; author_name := "bea";
     channel_nsfw := false; guild_members := [7; 8] |}.

End TagRace.

(* ===================================================================== *)
(** ** Theorems                                                           *)
(* ===================================================================== *)

Section Base64Facts.
Import Base64 Base64Check.

Lemma octets_complete (a : Z) : 0 <= a < 256 -> In a octets.
Proof.
  intros Ha. unfold octets. apply in_map_iff.
  exists (Z.to_nat a). split; [lia|]. apply in_seq. lia.
Qed.

Lemma all1_spec P : all1 P = true -> forall a, 0 <= a < 256 -> P a = true.
Proof.
  unfold all1. intros H a Ha.
  rewrite forallb_forall in H. apply H, octets_complete, Ha.
Qed.

Lemma all2_spec P :
  all2 P = true -> forall a b, 0 <= a < 256 -> 0 <= b < 256 -> P a b = true.
Proof.
  unfold all2. intros H a b Ha Hb.
  apply (all1_spec (P a)); [|exact Hb].
  apply (all1_spec (fun a => all1 (P a))); assumption.
Qed.

Lemma sextet_table v :
  0 <= v < 64 ->
  table_a2b_base64 (b2a v) = Some v /\ b2a v <> BASE64_PAD /\ is_ascii (b2a v) = true.
Proof.
  intros Hv.
  assert (H : sextet_ok v = true).
  { apply (all1_spec sextet_ok); [vm_compute; reflexivity | lia]. }
  unfold sextet_ok in H.
  destruct (v <? 64) eqn:E; [|apply Z.ltb_ge in E; lia].
  simpl in H. apply andb_prop in H as [H H3]. apply andb_prop in H as [H1 H2].
  destruct (table_a2b_base64 (b2a v)) as [w|]; [|discriminate].
  apply Z.eqb_eq in H1. subst w. split; [reflexivity|]. split; [|exact H3].
  intros C. rewrite C in H2. discriminate.
Qed.

End Base64Facts.

Section Base64RoundTrip.
Import Base64 Base64Check.

Lemma in64_spec v : in64 v = true -> 0 <= v < 64.
Proof. unfold in64. intros H. apply andb_prop in H as [H1 H2]. lia. Qed.

Lemma left_pair_spec a b :
  0 <= a < 256 -> 0 <= b < 256 ->
  0 <= sx1 a < 64 /\ 0 <= sx2 a b < 64
  /\ Z.land (Z.lor (Z.shiftl (sx1 a) 2) (Z.shiftr (sx2 a b) 4)) 255 = a
  /\ Z.land (sx2 a b) 15 = Z.shiftr b 4.
Proof.
  intros Ha Hb.
  assert (H : left_pair a b = true).
  { apply (all2_spec left_pair); [vm_compute; reflexivity | lia | lia]. }
  unfold left_pair in H.
  apply andb_prop in H as [H H4]. apply andb_prop in H as [H H3].
  apply andb_prop in H as [H1 H2].
  apply in64_spec in H1, H2. apply Z.eqb_eq in H3, H4. tauto.
Qed.

Lemma right_pair_spec b c :
  0 <= b < 256 -> 0 <= c < 256 ->
  0 <= sx3 b c < 64 /\ 0 <= sx4 c < 64
  /\ Z.land (Z.lor (Z.shiftl (Z.shiftr b 4) 4) (Z.shiftr (sx3 b c) 2)) 255 = b
  /\ Z.land (sx3 b c) 3 = Z.shiftr c 6
  /\ Z.land (Z.lor (Z.shiftl (Z.shiftr c 6) 6) (sx4 c)) 255 = c.
Proof.
  intros Hb Hc.
  assert (H : right_pair b c = true).
  { apply (all2_spec right_pair); [vm_compute; reflexivity | lia | lia]. }
  unfold right_pair in H.
  apply andb_prop in H as [H H5]. apply andb_prop in H as [H H4].
  apply andb_prop in H as [H H3]. apply andb_prop in H as [H1 H2].
  apply in64_spec in H1, H2. apply Z.eqb_eq in H3, H4, H5. tauto.
Qed.

Lemma sx2_0 a : Z.shiftl (Z.land a 3) 4 = sx2 a 0.
Proof. unfold sx2. rewrite Z.shiftr_0_l, Z.lor_0_r. reflexivity. Qed.

Lemma sx3_0 b : Z.shiftl (Z.land b 15) 2 = sx3 b 0.
Proof. unfold sx3. rewrite Z.shiftr_0_l, Z.lor_0_r. reflexivity. Qed.





(** Induction over a list three elements at a time, the way the encoder
    consumes its input. *)
Lemma list_ind3 {A} (P : list A -> Prop) :
  P [] -> (forall a, P [a]) -> (forall a b, P [a; b]) ->
  (forall a b c l, P l -> P (a :: b :: c :: l)) ->
  forall l, P l.
Proof.
  intros H0 H1 H2 H3.
  fix IH 1. intros [|a [|b [|c l]]]; [exact H0 | apply H1 | apply H2 |].
  apply H3, IH.
Qed.



(** The encoder writes ASCII only. *)
Lemma b64encode_ascii bin :
  Forall is_octet bin -> forallb is_ascii (b64encode bin) = true.
Proof.
  induction bin as [|a|a b|a b c l IH] using list_ind3; intros HF.
  - reflexivity.
  - inversion_clear HF as [|? ? Ha _].
    destruct (left_pair_spec a 0 Ha ltac:(lia)) as (R1 & R2 & _).
    cbn [b64encode forallb]. rewrite sx2_0. fold (sx1 a).
    rewrite (proj2 (proj2 (sextet_table _ R1))), (proj2 (proj2 (sextet_table _ R2))).
    reflexivity.
  - inversion_clear HF as [|? ? Ha HF']. inversion_clear HF' as [|? ? Hb _].
    destruct (left_pair_spec a b Ha Hb) as (R1 & R2 & _).
    destruct (right_pair_spec b 0 Hb ltac:(lia)) as (R3 & _).
    cbn [b64encode forallb]. rewrite sx3_0. fold (sx1 a) (sx2 a b).
    rewrite (proj2 (proj2 (sextet_table _ R1))), (proj2 (proj2 (sextet_table _ R2))),
      (proj2 (proj2 (sextet_table _ R3))).
    reflexivity.
  - inversion_clear HF as [|? ? Ha HF']. inversion_clear HF' as [|? ? Hb HF].
    inversion_clear HF as [|? ? Hc HF'].
    destruct (left_pair_spec a b Ha Hb) as (R1 & R2 & _).
    destruct (right_pair_spec b c Hb Hc) as (R3 & R4 & _).
    cbn [b64encode forallb]. fold (sx1 a) (sx2 a b) (sx3 b c) (sx4 c).
    rewrite (proj2 (proj2 (sextet_table _ R1))), (proj2 (proj2 (sextet_table _ R2))),
      (proj2 (proj2 (sextet_table _ R3))), (proj2 (proj2 (sextet_table _ R4))).
    rewrite IH by exact HF'. reflexivity.
Qed.

End Base64RoundTrip.

Section EncodeDecode.
Import Base64 Base64Check Encoding.

Lemma ascii_forallb (s : pystr) :
  Forall (fun c => 0 <= c < 128) s -> forallb is_ascii s = true.
Proof.
  induction 1 as [|c s Hc _ IH]; [reflexivity|].
  cbn [forallb]. rewrite IH, andb_true_r. unfold is_ascii.
  apply andb_true_intro. split; [apply Z.leb_le | apply Z.ltb_lt]; lia.
Qed.

Lemma ascii_octets (s : pystr) :
  Forall (fun c => 0 <= c < 128) s -> Forall is_octet s.
Proof.
  induction 1 as [|c s Hc _ IH]; constructor; [unfold is_octet; lia | exact IH].
Qed.



Example encode_hi :
  field_of (encode {| author := {| author_name := "ann"; avatar_url := Some "a.png"%string |};
                      utcnow := 0 |} [104; 105; 33]) "Encoded [base64]:"
  = Some (code_block [97; 71; 107; 104]).
Proof. reflexivity. Qed.

Example encode_pad2 : b64encode [104] = [97; 65; 61; 61].
Proof. reflexivity. Qed.

Example decode_skips_foreign : b64decode [97; 32; 65; 10; 61; 61] = Some [104].
Proof. reflexivity. Qed.

Example decode_open_quad : b64decode [97; 65; 61] = None.
Proof. reflexivity. Qed.

End EncodeDecode.

Section TagFacts.
Import Tags.

Lemma find_one_has_id name c d : find_one name c = Some d -> id d = name.
Proof.
  unfold find_one. intros H. apply find_some in H as [_ H].
  unfold has_id in H. apply String.eqb_eq in H. exact H.
Qed.

Lemma find_one_None name c : find_one name c = None <-> name ∉ ids c.
Proof.
  unfold find_one, ids. induction c as [|d c IH]; cbn [List.find List.map].
  - split; [intros _; apply not_elem_of_nil | reflexivity].
  - rewrite not_elem_of_cons. unfold has_id at 1.
    destruct (String.eqb_spec (id d) name) as [E|E].
    + split; [discriminate | intros [N _]; congruence].
    + rewrite IH. split; [intros H; split; [congruence | exact H] | tauto].
Qed.

Lemma ids_update_one name f c :
  (forall d, id (f d) = id d) -> ids (update_one name f c) = ids c.
Proof.
  intros Hf. unfold ids. induction c as [|d c IH]; [reflexivity|].
  cbn [update_one]. destruct (has_id name d); cbn [List.map].
  - rewrite Hf. reflexivity.
  - rewrite IH. reflexivity.
Qed.

Lemma ids_rename_incl tag name c x :
  x ∈ ids (update_one tag (set_id name) c) -> x = name \/ x ∈ ids c.
Proof.
  unfold ids. induction c as [|d c IH]; cbn [update_one List.map]; [tauto|].
  destruct (has_id tag d); cbn [List.map]; rewrite !elem_of_cons.
  - cbn [id set_id]. tauto.
  - intros [->|H]; [tauto|]. destruct (IH H); tauto.
Qed.

Lemma NoDup_rename tag name c :
  name ∉ ids c -> NoDup (ids c) -> NoDup (ids (update_one tag (set_id name) c)).
Proof.
  unfold ids. induction c as [|d c IH]; cbn [update_one List.map]; [intros; constructor|].
  rewrite not_elem_of_cons, NoDup_cons. intros [Hne Hnot] [Hd Hnd].
  destruct (has_id tag d); cbn [List.map]; apply NoDup_cons.
  - cbn [id set_id]. split; assumption.
  - split; [|apply IH; assumption].
    intros Hin. apply ids_rename_incl in Hin as [E|Hin]; [congruence|].
    apply Hd, Hin.
Qed.

Lemma NoDup_insert d c :
  id d ∉ ids c -> NoDup (ids c) -> NoDup (ids (insert_one d c)).
Proof.
  unfold ids, insert_one. intros Hnot Hnd. rewrite List.map_app. cbn [List.map].
  apply NoDup_app. split; [exact Hnd|]. split.
  - intros x Hx Hin. apply list_elem_of_singleton in Hin. subst x. contradiction.
  - apply NoDup_singleton.
Qed.

Lemma update_one_same_but_count tag c :
  Forall2 same_but_count c (update_one tag inc_count c).
Proof.
  assert (R : forall d, same_but_count d d) by (intros d; repeat split).
  induction c as [|d c IH]; cbn [update_one]; [constructor|].
  destruct (has_id tag d).
  - constructor; [repeat split|]. clear IH.
    induction c; constructor; [apply R | assumption].
  - constructor; [apply R | exact IH].
Qed.

(** [_delete_tag] leaves the collection as it found it, whatever tag it
    is asked to delete. *)
Lemma _delete_tag_store ctx tag c : store (_delete_tag ctx tag c) = c.
Proof.
  unfold _delete_tag. destruct (find_one tag c); [|reflexivity].
  destruct (_ =? _); reflexivity.
Qed.

(** C6. [_show_tag] changes no field but [count]: after the handler every
    document of the collection is in its place with the same id, text,
    owner, nsfw flag and creation time, whether the tag was shown, refused
    outside an NSFW channel, or not found. *)
Theorem show_tag_frame (ctx : Context) (tag : string) (msg_ref : option Z)
    (c : collection) :
  Forall2 same_but_count c (store (_show_tag ctx tag msg_ref c)).
Proof. unfold _show_tag. cbn [store done]. apply update_one_same_but_count. Qed.

Example show_tag_shown :
  _show_tag ann "hello" None [hello; spicy]
  = done [inc_count hello; spicy] [Send (TagText "hello world")].
Proof. reflexivity. Qed.

Example show_tag_refused :
  _show_tag ann "spicy" (Some 42) [hello; spicy]
  = done [hello; inc_count spicy] [Reply (NsfwOnly "<@7>")].
Proof. reflexivity. Qed.

Example show_tag_missing :
  _show_tag ann "nope" None [hello; spicy]
  = done [hello; spicy] [Reply (NoTag "<@7>" "nope")].
Proof. reflexivity. Qed.

(** C4, at the failing input.  The claim: when a tag named [tag] exists
    and the invoker owns it, the delete handler removes exactly that
    document and answers "tag deleted successfully".  The handler passes
    the [tags] database handle, not [tag], as the filter of [delete_one]:
    ann deletes her own tag "hello", the document is still there
    afterwards and no success message was sent. *)
Theorem delete_tag_keeps_document :
  find_one "hello" [hello; spicy] = Some hello
  /\ owner hello = author_id ann
  /\ store (_delete_tag ann "hello" [hello; spicy]) = [hello; spicy]
  /\ find_one "hello" (store (_delete_tag ann "hello" [hello; spicy])) = Some hello
  /\ out (_delete_tag ann "hello" [hello; spicy]) = []
  /\ raised (_delete_tag ann "hello" [hello; spicy]) = Some InvalidDocument.
Proof. repeat split. Qed.

Lemma run_ids_cases ctx op c :
  ids (store (run ctx op c)) = ids c
  \/ (exists d, store (run ctx op c) = insert_one d c /\ id d ∉ ids c)
  \/ (exists tag name, store (run ctx op c) = update_one tag (set_id name) c
                       /\ name ∉ ids c).
Proof.
  destruct op as [tag r|tag t v now|tag|tag name|tag t|tag|tag m v|tag|tag now|];
    cbn [run].
  - left. apply ids_update_one. reflexivity.
  - unfold _create_tag. destruct (find_one tag c) eqn:F; [left; reflexivity|].
    destruct v as [v|]; [|left; reflexivity].
    right. left. eexists. split; [reflexivity|]. cbn [id]. apply find_one_None, F.
  - left. rewrite _delete_tag_store. reflexivity.
  - unfold _name_edit. destruct (find_one name c) eqn:F; [left; reflexivity|].
    destruct (find_one tag c); [|left; reflexivity].
    destruct (_ =? _); [|left; reflexivity].
    right. right. exists tag, name. split; [reflexivity|]. apply find_one_None, F.
  - left. unfold _text_edit. destruct (find_one tag c); [|reflexivity].
    destruct (_ =? _); [|reflexivity]. apply ids_update_one. reflexivity.
  - left. unfold _claim_owner. destruct (find_one tag c); [|reflexivity].
    destruct (get_member _ _); [reflexivity|]. apply ids_update_one. reflexivity.
  - left. unfold _transfer_owner. destruct (find_one tag c); [|reflexivity].
    destruct (negb _); [reflexivity|].
    destruct v as [[|]|]; try reflexivity. apply ids_update_one. reflexivity.
  - left. unfold _toggle_nsfw. destruct (find_one tag c); [|reflexivity].
    destruct (negb _); [reflexivity|]. apply ids_update_one. reflexivity.
  - left. unfold _view_tag. destruct (find_one tag c); reflexivity.
  - left. reflexivity.
Qed.

(** C9, amended.  Tag ids stay unique under handlers that run one at a
    time.  [_create_tag] refuses with "already exists"
    when a document with the requested id exists and inserts the new
    document only otherwise; [_name_edit] refuses with "that name already
    exists" when a document with the new id exists; and every tag handler
    of the file, run on a collection whose ids are pairwise distinct,
    leaves a collection whose ids are pairwise distinct.  A handler runs
    here from its first to its last database call without another
    handler's writes in between. *)
Theorem tag_ids_stay_unique (ctx : Context) (c : collection) :
  (forall tag text v now,
      is_Some (find_one tag c) ->
      _create_tag ctx tag text v now c
      = done c [Reply (AlreadyExists (author_mention ctx) tag)])
  /\ (forall tag text v now,
      store (_create_tag ctx tag text v now c) <> c ->
      find_one tag c = None
      /\ exists d, id d = tag /\ store (_create_tag ctx tag text v now c) = c ++ [d])
  /\ (forall tag name,
      is_Some (find_one name c) ->
      _name_edit ctx tag name c = done c [Reply (NameExists (author_mention ctx))])
  /\ (forall op, NoDup (ids c) -> NoDup (ids (store (run ctx op c)))).
Proof.
  repeat split.
  - intros tag t v now [d Hd]. unfold _create_tag. rewrite Hd. reflexivity.
  - revert H. unfold _create_tag. destruct (find_one tag c); [|reflexivity].
    intros H. exfalso. apply H. reflexivity.
  - revert H. unfold _create_tag. destruct (find_one tag c).
    { intros H. exfalso. apply H. reflexivity. }
    destruct v as [v|]; [|intros H; exfalso; apply H; reflexivity].
    intros _. eexists. split; [|reflexivity]. reflexivity.
  - intros tag name [d Hd]. unfold _name_edit. rewrite Hd. reflexivity.
  - intros op Hnd.
    destruct (run_ids_cases ctx op c) as [E|[(d & E & Hd)|(tag & name & E & Hn)]].
    + rewrite E. exact Hnd.
    + rewrite E. apply NoDup_insert; assumption.
    + rewrite E. apply NoDup_rename; assumption.
Qed.

(** Renaming "hello" to "hi" in a collection of two distinct ids. *)
Lemma tag_ids_stay_unique_witness :
  NoDup (ids (store (run ann (OpNameEdit "hello" "hi") [hello; spicy])))
  /\ _create_tag ann "hello" "again" (Some true) 5 [hello; spicy]
     = done [hello; spicy] [Reply (AlreadyExists "<@7>" "hello")]
  /\ _name_edit ann "hello" "spicy" [hello; spicy]
     = done [hello; spicy] [Reply (NameExists "<@7>")].
Proof.
  destruct (tag_ids_stay_unique ann [hello; spicy]) as (Hc & _ & Hr & Hn).
  split; [|split].
  - apply Hn. apply (bool_decide_unpack _). vm_compute. reflexivity.
  - apply Hc. vm_compute. eexists. reflexivity.
  - apply Hr. vm_compute. eexists. reflexivity.
Defined.

Example create_tag_inserts :
  _create_tag ann "new" "text" (Some false) 5 [hello]
  = done [hello; {| id := "new"; text := "text"; count := 0; owner := 7;
                    nsfw := false; created_at := 5 |}]
         [Send (AskNsfw "<@7>"); Reply (Created "<@7>")].
Proof. reflexivity. Qed.

Example create_tag_prompt_timeout :
  _create_tag ann "new" "text" None 5 [hello]
  = raise NameError [hello] [Send (AskNsfw "<@7>")].
Proof. reflexivity. Qed.

Example name_edit_renames :
  _name_edit ann "hello" "hi" [hello; spicy]
  = done [set_id "hi" hello; spicy] [Reply (NameChanged "<@7>")].
Proof. reflexivity. Qed.

End TagFacts.

Section FactFacts.
Import Fact.

(** Whatever [lower] does, an animal outside the list gets no reply at all. *)
Lemma animal_fact_unsupported lower title request ctx animal :
  existsb (String.eqb (lower animal)) animals = false ->
  animal_fact lower title request ctx animal = {| out := []; raised := None |}.
Proof. intros H. unfold animal_fact. rewrite H. reflexivity. Qed.

(** C5, at the failing input.  The claim: for every animal string the fact
    command sends some reply, an error message when the animal is not one of
    dog, cat, panda, fox, bird, koala.  The handler's outer [if] has no
    [else]; the "no facts are available for that animal" message sits under
    the status test of a supported animal.  Asked for a lion, with the
    service up, the handler returns without sending anything. *)
Theorem animal_fact_lion_silent :
  existsb (String.eqb (PyStr.lower "Lion")) animals = false
  /\ animal_fact PyStr.lower PyStr.title service bob "Lion"
     = {| out := []; raised := None |}.
Proof. split; reflexivity. Qed.

Example animal_fact_dog :
  animal_fact PyStr.lower PyStr.title service bob "DOG"
  = {| out := [ReplyEmbed "Dog fact" "They sleep a lot." 255 "https://i.example/1.png"];
       raised := None |}.
Proof. reflexivity. Qed.

Example animal_fact_service_down :
  animal_fact PyStr.lower PyStr.title (fun _ => {| status := 503; json := [] |}) bob "cat"
  = {| out := [ReplyNoFacts "<@9>"]; raised := None |}.
Proof. reflexivity. Qed.

End FactFacts.

Section WaitForFacts.
Import WaitFor.

Context {Predicate Kwargs Awaitable Result : Type}.
Variable wait_for : string -> Predicate -> option Q -> Kwargs -> Awaitable.
Variable asyncio_getattr : string -> string -> string.
Variable asyncio_wait : list Awaitable -> option Q -> string -> Result.

(** C7. [multiple_wait_for] given a dict [d] of checks by event name does
    what it does given [list(d.items())], with the same [return_when],
    [timeout] and keyword arguments: it waits on the same [wait_for] calls
    and hands [asyncio.wait] the same arguments. *)
Theorem multiple_wait_for_dict_as_items (d : gmap string Predicate) (return_when : string)
    (timeout : option Q) (kwargs : Kwargs) :
  multiple_wait_for wait_for asyncio_getattr asyncio_wait
    (EventsDict d) return_when timeout kwargs
  = multiple_wait_for wait_for asyncio_getattr asyncio_wait
      (EventsList (items d)) return_when timeout kwargs.
Proof. reflexivity. Qed.

End WaitForFacts.

Section TelephoneFacts.
Import Telephone.

Variable lower : string -> string.
Variable bot : Bot.
Variable ctx : Context.
Variable server : Guild.

Lemma busy_emit l w k : busy (emit l w) k = busy w k.
Proof. reflexivity. Qed.

Lemma sent_update g v w : sent (telephone_update g v w) = sent w.
Proof. reflexivity. Qed.

Lemma emit_emit l1 l2 w : emit l2 (emit l1 w) = emit (l1 ++ l2) w.
Proof. unfold emit. cbn [tel sent]. rewrite app_assoc. reflexivity. Qed.

Lemma emit_nil w : emit [] w = w.
Proof. destruct w. unfold emit. cbn [tel sent]. rewrite app_nil_r. reflexivity. Qed.

Lemma busy_update g v w k :
  busy (telephone_update g v w) k
  = if decide (g = k) then (fun _ => v) <$> busy w k else busy w k.
Proof.
  unfold busy, telephone_update. cbn [tel]. rewrite lookup_alter.
  destruct (decide (g = k)) as [->|]; [|reflexivity].
  destruct (tel w !! k); reflexivity.
Qed.

Lemma has_line_update g v w k :
  is_Some (busy w k) -> is_Some (busy (telephone_update g v w) k).
Proof.
  rewrite busy_update. intros [b Hb]. rewrite Hb.
  destruct (decide (g = k)); eexists; reflexivity.
Qed.

Lemma free_update_same w k :
  is_Some (busy w k) -> busy (telephone_update k false w) k = Some false.
Proof.
  rewrite busy_update. intros [b Hb]. rewrite Hb.
  destruct (decide (k = k)); [reflexivity | congruence].
Qed.

Lemma free_update_keeps g w k :
  busy w k = Some false -> busy (telephone_update g false w) k = Some false.
Proof.
  rewrite busy_update. intros Hb. rewrite Hb.
  destruct (decide (g = k)); reflexivity.
Qed.

(** Two updates to [False] leave both lines free, whichever is done first
    and also when both are one line. *)
Lemma free_both a b w :
  is_Some (busy w a) -> is_Some (busy w b) ->
  busy (telephone_update b false (telephone_update a false w)) a = Some false
  /\ busy (telephone_update b false (telephone_update a false w)) b = Some false.
Proof.
  intros Ha Hb. split.
  - apply free_update_keeps, free_update_same, Ha.
  - apply free_update_same, has_line_update, Hb.
Qed.




Lemma line_inactive_returns tc g w :
  get_guild bot (guild_id server) = Some g ->
  line_inactive bot ctx server tc w
  = (Returned,
     telephone_update (guild_id server) false
       (telephone_update (guild_id (guild ctx)) false
          (emit [Sleep (1 # 2);
                 Send tc (LineInactive (guild_id (guild ctx)) (guild_name (guild ctx)));
                 Reply (channel ctx) (LineInactive (guild_id server) (guild_name g))] w))).
Proof.
  intros Hg. unfold line_inactive. rewrite Hg, !emit_emit. reflexivity.
Qed.

(** The loop, once it ends, ends with both lines free. *)
Lemma relay_loop_ends_free tc ini g tks :
  get_guild bot (guild_id server) = Some g ->
  forall w st w',
    is_Some (busy w (guild_id (guild ctx))) ->
    is_Some (busy w (guild_id server)) ->
    relay_loop lower bot ctx server tc ini tks w = (st, w') ->
    st <> Waiting ->
    st = Returned
    /\ busy w' (guild_id (guild ctx)) = Some false
    /\ busy w' (guild_id server) = Some false.
Proof.
  intros Hg. induction tks as [|[window now] tks IH]; intros w st w' Ha Hb Hrun Hst.
  - cbn in Hrun. injection Hrun as <- _. contradiction.
  - cbn [relay_loop] in Hrun.
    destruct (wait_for (check_talk ctx tc) window) as [m|].
    + destruct (String.eqb (lower (content m)) "hangup").
      * injection Hrun as <- <-. split; [reflexivity|].
        rewrite !busy_emit. apply free_both; assumption.
      * destruct (Qle_bool (ini - now) 60).
        -- injection Hrun as <- <-. split; [reflexivity|].
           apply free_both; rewrite !busy_emit; assumption.
        -- eapply IH; [| |exact Hrun|exact Hst]; rewrite busy_emit; assumption.
    + rewrite (line_inactive_returns tc g) in Hrun by exact Hg.
      injection Hrun as <- <-. split; [reflexivity|].
      apply free_both; rewrite busy_emit; assumption.
Qed.

(** Turns that relay and go on are passed one after the other. *)
Lemma relay_loop_goes_on tc ini pre rest :
  Forall (goes_on lower ctx tc ini) pre ->
  forall w,
    relay_loop lower bot ctx server tc ini (pre ++ rest) w
    = relay_loop lower bot ctx server tc ini rest
        (emit (concat (List.map (relayed_tick ctx tc) pre)) w).
Proof.
  induction 1 as [|[window now] pre (m & Hm & Hh & Ht) _ IH]; intros w.
  - cbn. rewrite emit_nil. reflexivity.
  - cbn [fst snd] in Hm, Ht. cbn [app relay_loop List.map concat].
    unfold relayed_tick at 1. cbn [fst]. rewrite Hm.
    destruct (String.eqb_spec (lower (content m)) "hangup") as [E|_]; [contradiction|].
    destruct (Qle_bool (ini - now) 60) eqn:E.
    { apply Qle_bool_iff in E. contradiction. }
    rewrite IH, emit_emit. reflexivity.
Qed.

(** [dial] on a placed call: the refusals are behind. *)
Ltac place_call H :=
  let Href := fresh "Href" in
  let sg := fresh "self_guild" in
  let tg := fresh "target_guild" in
  destruct H as (Href & sg & tg & ?Hself & ?Htarget & ?Hfree & ?Hchan & ?Hb1 & ?Hb2 & ?Hg);
  apply Nat.eqb_neq in Href;
  unfold dial;
  rewrite Href, Hself, Htarget, Hfree, Hchan, Hb1, Hb2, Hg;
  cbn [orb].

Lemma placed_has_lines w tc g :
  call_placed bot ctx server w tc g ->
  is_Some (busy w (guild_id (guild ctx))) /\ is_Some (busy w (guild_id server)).
Proof.
  intros (_ & sg & tg & Hs & Ht & _). unfold busy. rewrite Hs, Ht.
  split; eexists; reflexivity.
Qed.


(** C2, amended.  The duration of a connected call is tested only in a
    turn of the relay loop in which a message other than "hangup" has
    arrived, after that message is relayed.  After a "pickup", and after
    any number of turns that relay a message with the limit not yet
    reached, the first such turn whose test [ini - time.time() <= 60] holds
    relays its message, sends "Disconnected. Call duration reached its
    maximum limit" to the caller's channel and to the target channel, sets
    is_line_busy to False for both guilds and returns.  Nothing that
    arrives afterwards ([rest]) is relayed. *)
Theorem dial_duration_limit (inp : Input) (w : world) (tc : Z) (g : Guild)
    (pick m : Message) (pre rest : list (list Message * Q)) (window : list Message)
    (now : Q) :
  call_placed bot ctx server w tc g ->
  wait_for (check_handshake lower ctx tc) (handshake inp) = Some pick ->
  lower (content pick) = "pickup"%string ->
  ticks inp = pre ++ (window, now) :: rest ->
  Forall (goes_on lower ctx tc (connect_time inp + 120)) pre ->
  wait_for (check_talk ctx tc) window = Some m ->
  lower (content m) <> "hangup"%string ->
  (connect_time inp + 120 - now <= 60)%Q ->
  exists w',
    dial lower bot ctx server inp w = (Returned, w')
    /\ sent w' = sent w ++ ringing ctx server tc g
                  ++ [Send (channel ctx) (Connected (greeting (greeting1 inp)));
                      Send tc (Connected (greeting (greeting2 inp)))]
                  ++ concat (List.map (relayed_tick ctx tc) pre)
                  ++ relayed ctx tc m
                  ++ [Send (channel ctx) DurationLimit; Send tc DurationLimit]
    /\ busy w' (guild_id (guild ctx)) = Some false
    /\ busy w' (guild_id server) = Some false.
Proof.
  intros Hplaced Hpick Hup Hticks Hpre Hm Hnot Hlimit.
  destruct (placed_has_lines w tc g Hplaced) as [Ha Hb].
  place_call Hplaced.
  rewrite Hpick, Hup, Hticks. cbn [String.eqb Ascii.eqb Bool.eqb andb].
  rewrite (relay_loop_goes_on tc _ pre _ Hpre).
  cbn [relay_loop]. rewrite Hm.
  destruct (String.eqb_spec (lower (content m)) "hangup") as [E|_]; [contradiction|].
  apply Qle_bool_iff in Hlimit. rewrite Hlimit.
  eexists. split; [reflexivity|]. split.
  - rewrite !sent_update. cbn [sent emit]. rewrite !sent_update. cbn [sent emit].
    unfold ringing. rewrite <- ?app_assoc. reflexivity.
  - apply free_both; rewrite !busy_emit;
      do 2 apply has_line_update; rewrite !busy_emit; assumption.
Qed.

(** C3, amended.  When the target server is not the caller's own guild
    object and is in the bot's guild cache, both records exist and the
    target's is_line_busy is true: the handler answers "Line busy!" in the
    caller's channel and returns; it sends nothing else, nothing to the
    target channel, and leaves every telephone record as it was. *)
Theorem dial_line_busy (inp : Input) (w : world) (self_guild target_guild : TelDoc)
    (g : Guild) :
  guild_ref server <> guild_ref (guild ctx) ->
  tel w !! guild_id (guild ctx) = Some self_guild ->
  tel w !! guild_id server = Some target_guild ->
  is_line_busy target_guild = true ->
  get_guild bot (guild_id server) = Some g ->
  dial lower bot ctx server inp w
  = (Returned, emit [Send (channel ctx) (LineBusy (guild_id server) (guild_name g))] w).
Proof.
  intros Href Hself Htarget Hbusy Hg. apply Nat.eqb_neq in Href.
  unfold dial. rewrite Href, Hself, Htarget, Hbusy, Hg. reflexivity.
Qed.

(** With the target guild in the cache for the whole call, a connected
    call that is through (not still waiting for an event) has returned and
    has left is_line_busy False for the caller's guild and for the target
    guild. *)
Theorem dial_connected_ends_free (inp : Input) (w w' : world) (tc : Z) (g : Guild)
    (pick : Message) (st : status) :
  call_placed bot ctx server w tc g ->
  wait_for (check_handshake lower ctx tc) (handshake inp) = Some pick ->
  lower (content pick) = "pickup"%string ->
  dial lower bot ctx server inp w = (st, w') ->
  st <> Waiting ->
  st = Returned
  /\ busy w' (guild_id (guild ctx)) = Some false
  /\ busy w' (guild_id server) = Some false.
Proof.
  intros Hplaced Hpick Hup Hrun Hst.
  destruct (placed_has_lines w tc g Hplaced) as [Ha Hb].
  revert Hrun. place_call Hplaced.
  rewrite Hpick, Hup. cbn [String.eqb Ascii.eqb Bool.eqb andb]. intros Hrun.
  eapply relay_loop_ends_free; [eassumption| | |exact Hrun|exact Hst];
    do 2 apply has_line_update; rewrite !busy_emit; assumption.
Qed.

End TelephoneFacts.

Section TelephoneRuns.
Import Telephone.

(** On the sample data the call from home to away is placed. *)
Ltac sample_call_placed :=
  split; [cbn; lia|]; exists (line 11 false), (line 22 false);
  repeat split; reflexivity.


Lemma dial_duration_limit_witness :
  exists w',
    dial PyStr.lower parrot caller away chat idle = (Returned, w')
    /\ sent w' = sent idle ++ ringing caller away 22 away
                  ++ [Send 11 (Connected "hi"); Send 22 (Connected "hello")]
                  ++ [Send 22 (Relayed "ann" "0001" "hi")]
                  ++ [Send 11 (Relayed "ann" "0001" "hey")]
                  ++ [Send 11 DurationLimit; Send 22 DurationLimit]
    /\ busy w' 100 = Some false
    /\ busy w' 200 = Some false.
Proof.
  apply (dial_duration_limit PyStr.lower parrot caller away chat idle 22 away
           (msg "PickUp" 22) (msg "hey" 22) [([msg "hi" 11], 1010%Q)]
           [([msg "late" 11], 1062%Q)] [msg "hey" 22] 1061%Q).
  - sample_call_placed.
  - reflexivity.
  - reflexivity.
  - reflexivity.
  - constructor; [|constructor]. exists (msg "hi" 11).
    split; [reflexivity|]. split; [discriminate|].
    intros H. vm_compute in H. apply H. reflexivity.
  - reflexivity.
  - discriminate.
  - intros H. vm_compute in H. discriminate H.
Defined.

Lemma dial_line_busy_witness :
  dial PyStr.lower parrot caller away silence engaged_away
  = (Returned, emit [Send 11 (LineBusy 200 "Away")] engaged_away).
Proof.
  apply (dial_line_busy PyStr.lower parrot caller away silence engaged_away
           (line 11 false) (line 22 true) away).
  - cbn. lia.
  - reflexivity.
  - reflexivity.
  - reflexivity.
  - reflexivity.
Defined.

(** C3 as stated fails on a self call: home dials itself while its own
    line is busy.  Both records exist (they are one record) and the target's
    is_line_busy is true, and the answer is "Can't make a self call". *)
Lemma line_busy_claim_self_call :
  ~ line_busy_claim PyStr.lower parrot caller home silence engaged.
Proof.
  unfold line_busy_claim. intros H.
  destruct H as [name H].
  - exists (line 11 true). reflexivity.
  - exists (line 11 true). split; reflexivity.
  - unfold dial in H. cbn [guild_ref home caller guild Nat.eqb] in H.
    injection H as H. discriminate H.
Qed.

Example self_call_answer :
  dial PyStr.lower parrot caller home silence engaged
  = (Returned, emit [Send 11 SelfCall] engaged).
Proof. reflexivity. Qed.

Lemma dial_connected_ends_free_witness :
  fst (dial PyStr.lower parrot caller away short_chat idle) = Returned
  /\ busy (snd (dial PyStr.lower parrot caller away short_chat idle)) 100 = Some false
  /\ busy (snd (dial PyStr.lower parrot caller away short_chat idle)) 200 = Some false.
Proof.
  apply (dial_connected_ends_free PyStr.lower parrot caller away short_chat idle
           (snd (dial PyStr.lower parrot caller away short_chat idle)) 22 away
           (msg "pickup" 22)
           (fst (dial PyStr.lower parrot caller away short_chat idle))).
  - sample_call_placed.
  - reflexivity.
  - reflexivity.
  - apply surjective_pairing.
  - vm_compute. discriminate.
Defined.

Example short_chat_messages :
  sent (snd (dial PyStr.lower parrot caller away short_chat idle))
  = [Send 11 (CallingTo 200 "Away"); Send 22 (IncomingCall 100 "Home");
     Send 11 (Connected "heya"); Send 22 (Connected "hi");
     Send 22 (Relayed "ann" "0001" "hi");
     Send 11 Disconnected; Send 22 Disconnected].
Proof. vm_compute. reflexivity. Qed.

(** A connected call sets both lines busy while it waits for the next
    message. *)
Example connected_lines_busy :
  let r := dial PyStr.lower parrot caller away
             {| handshake := [msg "pickup" 11]; greeting1 := 0; greeting2 := 0;
                connect_time := 0; ticks := [] |} idle in
  fst r = Waiting /\ busy (snd r) 100 = Some true /\ busy (snd r) 200 = Some true.
Proof. vm_compute. repeat split. Qed.

End TelephoneRuns.

Section TagExtras.
Import Tags TagGuard.

Lemma has_id_spec name d : has_id name d = true <-> id d = name.
Proof. unfold has_id. apply String.eqb_eq. Qed.

Lemma find_one_app_fresh tag c d :
  find_one tag c = None -> id d = tag -> find_one tag (c ++ [d]) = Some d.
Proof.
  unfold find_one. intros Hc Hd. induction c as [|x c IH]; cbn [app List.find].
  - rewrite (proj2 (has_id_spec tag d) Hd). reflexivity.
  - cbn [List.find] in Hc. destruct (has_id tag x); [discriminate|]. apply IH, Hc.
Qed.

Lemma find_one_update_one tag f c d :
  find_one tag c = Some d -> id (f d) = tag ->
  find_one tag (update_one tag f c) = Some (f d).
Proof.
  unfold find_one. intros Hc Hf. induction c as [|x c IH]; [discriminate|].
  cbn [List.find update_one] in *. destruct (has_id tag x) eqn:E.
  - injection Hc as ->. cbn [List.find].
    rewrite (proj2 (has_id_spec tag (f d)) Hf). reflexivity.
  - cbn [List.find]. rewrite E. apply IH, Hc.
Qed.

Lemma update_one_missing tag f c : find_one tag c = None -> update_one tag f c = c.
Proof.
  unfold find_one. induction c as [|x c IH]; [reflexivity|].
  cbn [List.find update_one]. destruct (has_id tag x); [discriminate|].
  intros H. rewrite IH by exact H. reflexivity.
Qed.

Lemma update_one_twice tag f g c :
  (forall d, id (g d) = id d) ->
  update_one tag f (update_one tag g c) = update_one tag (fun d => f (g d)) c.
Proof.
  intros Hg. induction c as [|x c IH]; [reflexivity|].
  cbn [update_one]. destruct (has_id tag x) eqn:E; cbn [update_one].
  - unfold has_id in *. rewrite Hg, E. reflexivity.
  - rewrite E, IH. reflexivity.
Qed.

Lemma update_one_same tag f c :
  (forall d, f d = d) -> update_one tag f c = c.
Proof.
  intros Hf. induction c as [|x c IH]; [reflexivity|].
  cbn [update_one]. destruct (has_id tag x); [rewrite Hf | rewrite IH]; reflexivity.
Qed.

(** X1. What [_show_tag] does, by case: a tag that exists has its use
    count raised by one whether its text is sent or refused outside an NSFW
    channel; a tag that does not exist leaves the collection as it is. *)
Theorem show_tag_outcome (ctx : Context) (tag : string) (msg_ref : option Z)
    (c : collection) :
  match find_one tag c with
  | Some d =>
      find_one tag (store (_show_tag ctx tag msg_ref c)) = Some (inc_count d)
      /\ out (_show_tag ctx tag msg_ref c)
         = [if nsfw d && negb (channel_nsfw ctx)
            then Reply (NsfwOnly (author_mention ctx))
            else say msg_ref (TagText (text d))]
  | None =>
      store (_show_tag ctx tag msg_ref c) = c
      /\ out (_show_tag ctx tag msg_ref c) = [Reply (NoTag (author_mention ctx) tag)]
  end.
Proof.
  unfold _show_tag. cbn [store out done].
  destruct (find_one tag c) as [d|] eqn:F.
  - split.
    + apply find_one_update_one; [exact F|]. cbn. eapply find_one_has_id, F.
    + destruct (nsfw d), (channel_nsfw ctx); reflexivity.
  - split; [apply update_one_missing, F | reflexivity].
Qed.

(** X2. A tag that was just created can be shown: after [_create_tag]
    on a free name, [_show_tag] in a channel where the tag may be shown
    sends the text given at creation, and the tag then has the creator as
    owner and a use count of one. *)
Theorem create_then_show (ctx ctx' : Context) (tag txt : string) (b : bool) (now : Z)
    (msg_ref : option Z) (c : collection) :
  find_one tag c = None ->
  b = false \/ channel_nsfw ctx' = true ->
  out (_show_tag ctx' tag msg_ref (store (_create_tag ctx tag txt (Some b) now c)))
  = [say msg_ref (TagText txt)]
  /\ find_one tag
       (store (_show_tag ctx' tag msg_ref (store (_create_tag ctx tag txt (Some b) now c))))
     = Some {| id := tag; text := txt; count := 1; owner := author_id ctx;
               nsfw := b; created_at := now |}.
Proof.
  intros Hfree Hshow.
  set (d := {| id := tag; text := txt; count := 0; owner := author_id ctx;
               nsfw := b; created_at := now |}).
  assert (Hc : store (_create_tag ctx tag txt (Some b) now c) = c ++ [d]).
  { unfold _create_tag. rewrite Hfree. destruct b; reflexivity. }
  rewrite Hc.
  assert (Hd : find_one tag (c ++ [d]) = Some d) by (apply find_one_app_fresh; auto).
  pose proof (show_tag_outcome ctx' tag msg_ref (c ++ [d])) as H.
  rewrite Hd in H. destruct H as [H1 H2]. split.
  - rewrite H2. subst d; cbn [nsfw text].
    destruct Hshow as [-> | ->]; [reflexivity|]. rewrite andb_false_r. reflexivity.
  - rewrite H1. reflexivity.
Qed.

Lemma create_then_show_witness :
  out (_show_tag bea "new" None (store (_create_tag ann "new" "fresh" (Some true) 9 [hello])))
  = [Send (TagText "fresh")]
  /\ find_one "new"
       (store (_show_tag bea "new" None
                 (store (_create_tag ann "new" "fresh" (Some true) 9 [hello]))))
     = Some {| id := "new"; text := "fresh"; count := 1; owner := 7;
               nsfw := true; created_at := 9 |}.
Proof.
  apply (create_then_show ann bea "new" "fresh" true 9 None [hello]).
  - reflexivity.
  - right. reflexivity.
Defined.

(** X3. Nobody but the owner changes a tag: when the tag exists and its
    owner is not the invoker, delete, rename, text edit, ownership transfer
    and NSFW toggle all leave the collection exactly as it was and raise
    nothing. *)
Theorem not_owner_changes_nothing (ctx : Context) (op : tag_op) (tag : string)
    (d : TagDoc) (c : collection) :
  owner_only op = Some tag ->
  find_one tag c = Some d ->
  owner d <> author_id ctx ->
  store (run ctx op c) = c /\ raised (run ctx op c) = None.
Proof.
  intros Hop Hd Hown. apply Z.eqb_neq in Hown.
  destruct op; cbn in Hop; try discriminate; injection Hop as ->; cbn [run].
  - unfold _delete_tag. rewrite Hd, Hown. split; reflexivity.
  - unfold _name_edit. destruct (find_one name c); [split; reflexivity|].
    rewrite Hd, Hown. split; reflexivity.
  - unfold _text_edit. rewrite Hd, Hown. split; reflexivity.
  - unfold _transfer_owner. rewrite Hd, Hown. split; reflexivity.
  - unfold _toggle_nsfw. rewrite Hd, Hown. split; reflexivity.
Qed.

Lemma not_owner_changes_nothing_witness :
  store (run bea (OpToggleNsfw "hello") [hello; spicy]) = [hello; spicy]
  /\ raised (run bea (OpToggleNsfw "hello") [hello; spicy]) = None.
Proof.
  apply (not_owner_changes_nothing bea (OpToggleNsfw "hello") "hello" hello [hello; spicy]).
  - reflexivity.
  - reflexivity.
  - cbn. lia.
Defined.

Lemma set_nsfw_negb_twice d : set_nsfw (negb (negb (nsfw d))) (set_nsfw (negb (nsfw d)) d) = d.
Proof. destruct d as [i t k o n a]. cbn. rewrite negb_involutive. reflexivity. Qed.

(** X4. Toggling the NSFW mark twice gives back the collection: the owner
    who runs [_toggle_nsfw] twice on a tag finds every document as before. *)
Theorem toggle_nsfw_twice (ctx : Context) (tag : string) (d : TagDoc) (c : collection) :
  find_one tag c = Some d ->
  owner d = author_id ctx ->
  store (_toggle_nsfw ctx tag (store (_toggle_nsfw ctx tag c))) = c.
Proof.
  intros Hd Hown. apply Z.eqb_eq in Hown.
  assert (H1 : store (_toggle_nsfw ctx tag c) = update_one tag (set_nsfw (negb (nsfw d))) c).
  { unfold _toggle_nsfw. rewrite Hd, Hown. reflexivity. }
  rewrite H1.
  assert (Hd' : find_one tag (update_one tag (set_nsfw (negb (nsfw d))) c)
                = Some (set_nsfw (negb (nsfw d)) d)).
  { apply find_one_update_one; [exact Hd|]. cbn. eapply find_one_has_id, Hd. }
  unfold _toggle_nsfw at 1. rewrite Hd'. cbn [owner set_nsfw nsfw]. rewrite Hown.
  cbn [negb store done].
  clear Hd' H1. revert Hd. unfold find_one.
  induction c as [|x c IH]; [discriminate|].
  cbn [List.find update_one]. destruct (has_id tag x) eqn:E; intros Hx.
  - injection Hx as ->. cbn [update_one]. unfold has_id in *. cbn [id set_nsfw].
    rewrite E. f_equal. apply set_nsfw_negb_twice.
  - cbn [update_one]. rewrite E. f_equal. apply IH, Hx.
Qed.

Lemma toggle_nsfw_twice_witness :
  store (_toggle_nsfw ann "hello" (store (_toggle_nsfw ann "hello" [hello; spicy])))
  = [hello; spicy].
Proof.
  apply (toggle_nsfw_twice ann "hello" hello [hello; spicy]); reflexivity.
Defined.

End TagExtras.

Section TagOwnership.
Import Tags TagGuard.

Lemma get_member_present (ctx : Context) (user : Z) :
  In user (guild_members ctx) -> get_member ctx user = Some user.
Proof.
  unfold get_member. induction (guild_members ctx) as [|x l IH]; [intros []|].
  cbn [In List.find]. destruct (Z.eqb_spec user x) as [->|N].
  - reflexivity.
  - intros [E|H]; [congruence | apply IH, H].
Qed.

Lemma get_member_absent (ctx : Context) (user : Z) :
  ~ In user (guild_members ctx) -> get_member ctx user = None.
Proof.
  unfold get_member. induction (guild_members ctx) as [|x l IH]; [reflexivity|].
  cbn [In List.find]. intros N. destruct (Z.eqb_spec user x) as [->|_].
  - exfalso. apply N. left. reflexivity.
  - apply IH. intros H. apply N. right. exact H.
Qed.

(** X5. A confirmed transfer hands the tag over for good: the tag is then
    owned by the chosen member, and the former owner's next text edit is
    refused and changes nothing.  Any other answer to the confirmation
    prompt, or none, leaves the collection as it was. *)
Theorem transfer_hands_over (ctx : Context) (tag t : string) (m : Member)
    (d : TagDoc) (c : collection) :
  find_one tag c = Some d ->
  owner d = author_id ctx ->
  member_id m <> author_id ctx ->
  find_one tag (store (_transfer_owner ctx tag m (Some true) c))
  = Some (set_owner (member_id m) d)
  /\ _text_edit ctx tag t (store (_transfer_owner ctx tag m (Some true) c))
     = done (store (_transfer_owner ctx tag m (Some true) c))
            [Reply (NotOwner (author_mention ctx))]
  /\ (forall v, v <> Some true -> store (_transfer_owner ctx tag m v c) = c).
Proof.
  intros Hd Hown Hm.
  assert (E : (owner d =? author_id ctx) = true) by (apply Z.eqb_eq, Hown).
  assert (H1 : store (_transfer_owner ctx tag m (Some true) c)
               = update_one tag (set_owner (member_id m)) c).
  { unfold _transfer_owner. rewrite Hd, E. reflexivity. }
  assert (H2 : find_one tag (update_one tag (set_owner (member_id m)) c)
               = Some (set_owner (member_id m) d)).
  { apply find_one_update_one; [exact Hd|]. cbn. eapply find_one_has_id, Hd. }
  rewrite H1. split; [exact H2|]. split.
  - unfold _text_edit. rewrite H2. cbn [owner set_owner].
    apply Z.eqb_neq in Hm. rewrite Hm. reflexivity.
  - intros v Hv. unfold _transfer_owner. rewrite Hd, E. cbn [negb].
    destruct v as [[|]|]; [congruence | reflexivity | reflexivity].
Qed.

Lemma transfer_hands_over_witness :
  find_one "hello"
    (store (_transfer_owner ann "hello" {| member_id := 8; member_name := "bea" |}
              (Some true) [hello; spicy]))
  = Some (set_owner 8 hello)
  /\ _text_edit ann "hello" "bye"
       (store (_transfer_owner ann "hello" {| member_id := 8; member_name := "bea" |}
                 (Some true) [hello; spicy]))
     = done (store (_transfer_owner ann "hello" {| member_id := 8; member_name := "bea" |}
                      (Some true) [hello; spicy]))
            [Reply (NotOwner "<@7>")]
  /\ (forall v, v <> Some true ->
        store (_transfer_owner ann "hello" {| member_id := 8; member_name := "bea" |}
                 v [hello; spicy]) = [hello; spicy]).
Proof.
  apply (transfer_hands_over ann "hello" "bye" {| member_id := 8; member_name := "bea" |}
           hello [hello; spicy]).
  - reflexivity.
  - reflexivity.
  - cbn. lia.
Defined.

(** X6. A tag can be claimed exactly when its owner is no longer a member
    of the guild: while the owner is a member the claim is refused and the
    collection is unchanged; once the owner has left, the claimant becomes
    the owner, whoever they are. *)
Theorem claim_only_when_owner_left (ctx : Context) (tag : string) (d : TagDoc)
    (c : collection) :
  find_one tag c = Some d ->
  (In (owner d) (guild_members ctx) ->
     _claim_owner ctx tag c = done c [Reply (CannotClaim (author_mention ctx))])
  /\ (~ In (owner d) (guild_members ctx) ->
        find_one tag (store (_claim_owner ctx tag c))
        = Some (set_owner (author_id ctx) d)
        /\ out (_claim_owner ctx tag c) = [Reply (Claimed (author_mention ctx) tag)]).
Proof.
  intros Hd. split; intros Hm; unfold _claim_owner; rewrite Hd.
  - rewrite (get_member_present ctx _ Hm). reflexivity.
  - rewrite (get_member_absent ctx _ Hm). cbn [store out done]. split; [|reflexivity].
    apply find_one_update_one; [exact Hd|]. cbn. eapply find_one_has_id, Hd.
Qed.

Lemma claim_only_when_owner_left_witness :
  (In (owner spicy) (guild_members ann) ->
     _claim_owner ann "spicy" [hello; spicy]
     = done [hello; spicy] [Reply (CannotClaim (author_mention ann))])
  /\ (~ In (owner spicy) (guild_members ann) ->
        find_one "spicy" (store (_claim_owner ann "spicy" [hello; spicy]))
        = Some (set_owner (author_id ann) spicy)
        /\ out (_claim_owner ann "spicy" [hello; spicy])
           = [Reply (Claimed (author_mention ann) "spicy")]).
Proof.
  apply (claim_only_when_owner_left ann "spicy" spicy [hello; spicy]). reflexivity.
Defined.

Lemma rename_back_store tag name c :
  find_one name c = None ->
  update_one name (set_id tag) (update_one tag (set_id name) c) = c.
Proof.
  unfold find_one. induction c as [|x c IH]; [reflexivity|].
  cbn [List.find update_one]. destruct (has_id name x) eqn:En; [discriminate|].
  intros Hc. destruct (has_id tag x) eqn:Et; cbn [update_one].
  - assert (Hn : has_id name (set_id name x) = true) by (apply has_id_spec; reflexivity).
    rewrite Hn. apply has_id_spec in Et. destruct x as [i t k o n a]. cbn in *.
    subst i. reflexivity.
  - rewrite En, IH by exact Hc. reflexivity.
Qed.

(** X7. Renaming a tag and renaming it back restores the collection: for
    an owner, with distinct tag names in the collection and a new name not
    in use, [_name_edit tag name] followed by [_name_edit name tag] leaves
    every document as it was, and both renames are accepted. *)
Theorem name_edit_round_trip (ctx : Context) (tag name : string) (d : TagDoc)
    (c : collection) :
  NoDup (ids c) ->
  find_one tag c = Some d ->
  owner d = author_id ctx ->
  find_one name c = None ->
  _name_edit ctx name tag (store (_name_edit ctx tag name c))
  = done c [Reply (NameChanged (author_mention ctx))].
Proof.
  intros Hnd Hd Hown Hfree.
  assert (E : (owner d =? author_id ctx) = true) by (apply Z.eqb_eq, Hown).
  assert (H1 : store (_name_edit ctx tag name c) = update_one tag (set_id name) c).
  { unfold _name_edit. rewrite Hfree, Hd, E. reflexivity. }
  rewrite H1.
  assert (Hne : tag <> name) by (intros ->; congruence).
  assert (Hgone : find_one tag (update_one tag (set_id name) c) = None).
  { clear H1 E Hown. revert Hnd Hd Hfree. unfold find_one, ids.
    induction c as [|x c IH]; [discriminate|].
    cbn [List.find update_one List.map]. rewrite NoDup_cons. intros [Hx Hnd].
    destruct (has_id tag x) eqn:Et.
    - intros _ _. cbn [List.find].
      assert (Hf : has_id tag (set_id name x) = false).
      { unfold has_id. cbn. apply String.eqb_neq. congruence. }
      rewrite Hf. apply has_id_spec in Et. rewrite Et in Hx.
      apply find_one_None. exact Hx.
    - destruct (has_id name x); [discriminate|]. intros Hd Hfree.
      cbn [List.find]. rewrite Et. apply IH; assumption. }
  assert (Hnew : find_one name (update_one tag (set_id name) c) = Some (set_id name d)).
  { clear H1 E Hown Hgone Hnd. revert Hd Hfree. unfold find_one.
    induction c as [|x c IH]; [discriminate|].
    cbn [List.find update_one]. destruct (has_id tag x) eqn:Et.
    - intros Hx _. injection Hx as ->. cbn [List.find].
      assert (Hn : has_id name (set_id name d) = true) by (apply has_id_spec; reflexivity).
      rewrite Hn. reflexivity.
    - destruct (has_id name x) eqn:En; [discriminate|]. intros Hd Hfree.
      cbn [List.find]. rewrite En. apply IH; assumption. }
  unfold _name_edit. rewrite Hgone, Hnew. cbn [owner set_id]. rewrite E.
  rewrite rename_back_store by exact Hfree. reflexivity.
Qed.

Lemma name_edit_round_trip_witness :
  _name_edit ann "hi" "hello" (store (_name_edit ann "hello" "hi" [hello; spicy]))
  = done [hello; spicy] [Reply (NameChanged "<@7>")].
Proof.
  apply (name_edit_round_trip ann "hello" "hi" hello [hello; spicy]).
  - apply (bool_decide_unpack _). vm_compute. reflexivity.
  - reflexivity.
  - reflexivity.
  - reflexivity.
Defined.

(** X8. An edit shows: after the owner's [_text_edit], [_show_tag] in a
    channel where the tag may be shown sends the new text, and the tag
    keeps its owner, its NSFW mark and its creation time. *)
Theorem text_edit_then_show (ctx ctx' : Context) (tag t : string) (msg_ref : option Z)
    (d : TagDoc) (c : collection) :
  find_one tag c = Some d ->
  owner d = author_id ctx ->
  nsfw d = false \/ channel_nsfw ctx' = true ->
  out (_show_tag ctx' tag msg_ref (store (_text_edit ctx tag t c)))
  = [say msg_ref (TagText t)]
  /\ find_one tag (store (_show_tag ctx' tag msg_ref (store (_text_edit ctx tag t c))))
     = Some (inc_count (set_text t d)).
Proof.
  intros Hd Hown Hshow.
  assert (E : (owner d =? author_id ctx) = true) by (apply Z.eqb_eq, Hown).
  assert (H1 : store (_text_edit ctx tag t c) = update_one tag (set_text t) c).
  { unfold _text_edit. rewrite Hd, E. reflexivity. }
  rewrite H1.
  assert (H2 : find_one tag (update_one tag (set_text t) c) = Some (set_text t d)).
  { apply find_one_update_one; [exact Hd|]. cbn. eapply find_one_has_id, Hd. }
  pose proof (show_tag_outcome ctx' tag msg_ref (update_one tag (set_text t) c)) as H.
  rewrite H2 in H. destruct H as [Ha Hb]. split; [|exact Ha].
  rewrite Hb. cbn [nsfw text set_text].
  destruct Hshow as [-> | ->]; [reflexivity|]. rewrite andb_false_r. reflexivity.
Qed.

Lemma text_edit_then_show_witness :
  out (_show_tag bea "hello" (Some 5) (store (_text_edit ann "hello" "bye" [hello; spicy])))
  = [RefReply 5 (TagText "bye")]
  /\ find_one "hello"
       (store (_show_tag bea "hello" (Some 5)
                 (store (_text_edit ann "hello" "bye" [hello; spicy]))))
     = Some (inc_count (set_text "bye" hello)).
Proof.
  apply (text_edit_then_show ann bea "hello" "bye" (Some 5) hello [hello; spicy]).
  - reflexivity.
  - reflexivity.
  - left. reflexivity.
Defined.

Lemma page_lines_lookup (k i : nat) (c : collection) :
  page_lines k c !! i = (fun d => ((k + i)%nat, id d)) <$> c !! i.
Proof.
  revert k i. induction c as [|x c IH]; intros k i; [destruct i; reflexivity|].
  destruct i as [|i]; cbn [page_lines].
  - cbn. rewrite Nat.add_0_r. reflexivity.
  - change (page_lines (S k) c !! i = (fun d => ((k + S i)%nat, id d)) <$> c !! i).
    rewrite IH. replace (S k + i)%nat with (k + S i)%nat by lia. reflexivity.
Qed.

(** X9. [_show_all_tags] lists every tag of the guild once, in the order
    of the collection and numbered from 1: line [i] (counting from 0) exists
    exactly when document [i] does, and carries the number [i + 1] and that
    document's name.  The collection is not changed. *)
Theorem show_all_tags_numbered (ctx : Context) (c : collection) :
  exists lines,
    _show_all_tags ctx c = done c [Send (Pages "Tags" lines)]
    /\ forall i : nat, lines !! i = (fun d => (S i, id d)) <$> c !! i.
Proof.
  exists (page_lines 1 c). split; [reflexivity|].
  intros i. rewrite page_lines_lookup. reflexivity.
Qed.

End TagOwnership.

Section TodoFacts.
Import Todo.

Lemma todo_has_id_spec name d : has_id name d = true <-> id d = name.
Proof. unfold has_id. apply String.eqb_eq. Qed.

Lemma todo_find_one_id name c d : find_one name c = Some d -> id d = name.
Proof.
  unfold find_one. intros H. apply find_some in H as [_ H].
  apply todo_has_id_spec, H.
Qed.

Lemma todo_find_one_None name c : find_one name c = None <-> name ∉ ids c.
Proof.
  unfold find_one, ids. induction c as [|d c IH]; cbn [List.find List.map].
  - split; [intros _; apply not_elem_of_nil | reflexivity].
  - rewrite not_elem_of_cons. unfold has_id at 1.
    destruct (String.eqb_spec (id d) name) as [E|E].
    + split; [discriminate | intros [N _]; congruence].
    + rewrite IH. split; [intros H; split; [congruence | exact H] | intros [_ H]; exact H].
Qed.

Lemma todo_find_one_app name c d :
  find_one name (c ++ [d])
  = match find_one name c with
    | Some x => Some x
    | None => if has_id name d then Some d else None
    end.
Proof.
  unfold find_one. induction c as [|x c IH]; cbn [app List.find]; [reflexivity|].
  destruct (has_id name x); [reflexivity | exact IH].
Qed.

Lemma todo_page_lines_app k c d :
  page_lines k (c ++ [d]) = page_lines k c ++ [((k + length c)%nat, id d)].
Proof.
  revert k. induction c as [|x c IH]; intros k; cbn [app page_lines length].
  - rewrite Nat.add_0_r. reflexivity.
  - rewrite IH. replace (S k + length c)%nat with (k + S (length c))%nat by lia.
    reflexivity.
Qed.

(** X10. After [_create_todo], [_show_todo] on the same name always finds
    an item: the new one, with the given text and the time of creation, when
    the name was free; the one that already had the name, untouched,
    otherwise. *)
Theorem create_todo_then_show (ctx : Context) (name t : string) (now : Z)
    (c : collection) :
  out (_show_todo ctx name (store (_create_todo ctx name t now c)))
  = [Reply match find_one name c with
           | Some d => Shown name (text d) (time d)
           | None => Shown name t now
           end].
Proof.
  unfold _create_todo, _show_todo. destruct (find_one name c) as [d|] eqn:F.
  - cbn [store done]. rewrite F. cbn [out done].
    rewrite (todo_find_one_id _ _ _ F). reflexivity.
  - cbn [store done]. unfold insert_one. rewrite todo_find_one_app, F.
    unfold has_id. cbn [id]. rewrite String.eqb_refl. reflexivity.
Qed.

(** X11. [_update_todo_text] never updates anything: it leaves the
    collection as it was for every input, so a later [_show_todo] answers
    as before; when the item exists it raises [NameError] without a reply,
    and only for a missing item does it answer (that there is no such item). *)
Theorem update_todo_text_changes_nothing (ctx : Context) (name t shown : string)
    (c : collection) :
  _show_todo ctx shown (store (_update_todo_text ctx name t c)) = _show_todo ctx shown c
  /\ match find_one name c with
     | Some _ =>
         raised (_update_todo_text ctx name t c) = Some NameError
         /\ out (_update_todo_text ctx name t c) = []
     | None =>
         raised (_update_todo_text ctx name t c) = None
         /\ out (_update_todo_text ctx name t c) = [Reply (NoTodo (author_mention ctx) name)]
     end.
Proof.
  unfold _update_todo_text. destruct (find_one name c); split; try split; reflexivity.
Qed.

(** X12. Renaming moves the item and keeps what it says: with distinct
    names in the collection, after [_update_todo_name name new_name] on an
    existing item and a free new name, [_show_todo] finds the old text and
    time under the new name and nothing under the old one. *)
Theorem update_todo_name_moves (ctx : Context) (name new_name : string) (d : TodoDoc)
    (c : collection) :
  NoDup (ids c) ->
  find_one name c = Some d ->
  find_one new_name c = None ->
  out (_show_todo ctx new_name (store (_update_todo_name ctx name new_name c)))
  = [Reply (Shown new_name (text d) (time d))]
  /\ out (_show_todo ctx name (store (_update_todo_name ctx name new_name c)))
     = [Reply (NoTodo (author_mention ctx) name)].
Proof.
  intros Hnd Hd Hfree.
  assert (H1 : store (_update_todo_name ctx name new_name c)
               = update_one name (set_id new_name) c).
  { unfold _update_todo_name. rewrite Hd, Hfree. reflexivity. }
  rewrite H1. clear H1.
  assert (Hne : name <> new_name) by (intros ->; congruence).
  assert (Hnew : find_one new_name (update_one name (set_id new_name) c)
                 = Some (set_id new_name d)
                 /\ find_one name (update_one name (set_id new_name) c) = None).
  { revert Hnd Hd Hfree. unfold find_one, ids.
    induction c as [|x c IH]; [discriminate|].
    cbn [List.find update_one List.map]. rewrite NoDup_cons. intros [Hx Hnd].
    destruct (has_id name x) eqn:Et.
    - intros Hd _. injection Hd as ->. cbn [List.find].
      assert (Hn : has_id new_name (set_id new_name d) = true)
        by (apply todo_has_id_spec; reflexivity).
      assert (Hf : has_id name (set_id new_name d) = false).
      { unfold has_id. cbn. apply String.eqb_neq. congruence. }
      rewrite Hn, Hf. split; [reflexivity|].
      apply todo_has_id_spec in Et. rewrite Et in Hx.
      apply todo_find_one_None. exact Hx.
    - destruct (has_id new_name x) eqn:En; [discriminate|]. intros Hd Hfree.
      cbn [List.find]. rewrite En, Et. apply IH; assumption. }
  destruct Hnew as [Hnew Hold]. unfold _show_todo. rewrite Hnew, Hold.
  split; reflexivity.
Qed.

Lemma update_todo_name_moves_witness :
  out (_show_todo cy "dairy" (store (_update_todo_name cy "milk" "dairy" [milk; rent])))
  = [Reply (Shown "dairy" "buy milk" 1600000100)]
  /\ out (_show_todo cy "milk" (store (_update_todo_name cy "milk" "dairy" [milk; rent])))
     = [Reply (NoTodo "<@9>" "milk")].
Proof.
  apply (update_todo_name_moves cy "milk" "dairy" milk [milk; rent]).
  - apply (bool_decide_unpack _). vm_compute. reflexivity.
  - reflexivity.
  - reflexivity.
Defined.

(** X13. The names of a user's TODO items stay distinct under handlers
    that run one at a time: whichever TODO handler runs, on whatever
    arguments, with no other write to the collection between its lookup
    and its own write, a collection without two items of the same name is
    left without two items of the same name. *)
Theorem todo_names_stay_unique (ctx : Context) (op : todo_op) (c : collection) :
  NoDup (ids c) -> NoDup (ids (store (run ctx op c))).
Proof.
  intros Hnd. destruct op as [name t now|name new_name|name t| |name]; cbn [run].
  - unfold _create_todo. destruct (find_one name c) eqn:F; cbn [store done]; [exact Hnd|].
    unfold ids, insert_one. rewrite List.map_app. cbn [List.map id].
    apply NoDup_app. split; [exact Hnd|]. split; [|apply NoDup_singleton].
    intros x Hx Hin. apply list_elem_of_singleton in Hin. subst x.
    apply todo_find_one_None in F. contradiction.
  - unfold _update_todo_name. destruct (find_one name c); [|exact Hnd].
    destruct (find_one new_name c) eqn:F; cbn [store done]; [exact Hnd|].
    apply todo_find_one_None in F. revert F Hnd. unfold ids.
    induction c as [|x c IH]; cbn [update_one List.map]; [intros; constructor|].
    rewrite not_elem_of_cons, NoDup_cons. intros [Hne Hnot] [Hx Hnd].
    destruct (has_id name x); cbn [List.map]; apply NoDup_cons.
    + cbn [id set_id]. split; assumption.
    + split; [|apply IH; assumption].
      intros Hin. apply Hx. clear IH Hnd Hx. revert Hin.
      induction c as [|y c IH]; cbn [update_one List.map]; [tauto|].
      apply not_elem_of_cons in Hnot as [Hy Hnot].
      destruct (has_id name y); cbn [List.map]; rewrite !elem_of_cons.
      * cbn [id set_id]. intros [E|H]; [congruence | right; exact H].
      * intros [E|H]; [left; exact E | right; apply IH; assumption].
  - unfold _update_todo_text. destruct (find_one name c); exact Hnd.
  - exact Hnd.
  - unfold _show_todo. destruct (find_one name c); exact Hnd.
Qed.

Lemma todo_names_stay_unique_witness :
  NoDup (ids (store (run cy (OpUpdateName "milk" "dairy") [milk; rent]))).
Proof.
  apply (todo_names_stay_unique cy (OpUpdateName "milk" "dairy") [milk; rent]).
  apply (bool_decide_unpack _). vm_compute. reflexivity.
Defined.

(** X14. A new item goes to the end of the list: after [_create_todo] on
    a free name, [_list_todo] shows the lines it showed before, followed by
    one line with the new name and the next number. *)
Theorem list_todo_after_create (ctx : Context) (name t : string) (now : Z)
    (c : collection) :
  find_one name c = None ->
  exists lines,
    out (_list_todo ctx c) = [Send (Pages "Your Pending Tasks" lines)]
    /\ length lines = length c
    /\ out (_list_todo ctx (store (_create_todo ctx name t now c)))
       = [Send (Pages "Your Pending Tasks" (lines ++ [(S (length c), name)]))].
Proof.
  intros Hfree. exists (page_lines 1 c). split; [reflexivity|]. split.
  - generalize 1%nat. induction c as [|x c IH]; intros k; cbn [page_lines length].
    + reflexivity.
    + rewrite IH; [reflexivity|]. apply todo_find_one_None in Hfree.
      apply todo_find_one_None. unfold ids in *. cbn [List.map] in Hfree.
      apply not_elem_of_cons in Hfree. tauto.
  - unfold _create_todo. rewrite Hfree. cbn [store done]. unfold _list_todo, insert_one.
    cbn [out done]. rewrite todo_page_lines_app. reflexivity.
Qed.

Lemma list_todo_after_create_witness :
  exists lines,
    out (_list_todo cy [milk; rent]) = [Send (Pages "Your Pending Tasks" lines)]
    /\ length lines = length [milk; rent]
    /\ out (_list_todo cy (store (_create_todo cy "call" "call home" 5 [milk; rent])))
       = [Send (Pages "Your Pending Tasks" (lines ++ [(S (length [milk; rent]), "call")]))].
Proof.
  apply (list_todo_after_create cy "call" "call home" 5 [milk; rent]). reflexivity.
Defined.

End TodoFacts.

Section EncodingExtras.
Import Base64 Base64Check Base64Lenient Encoding.


Lemma not_ascii_Exists (s : pystr) :
  forallb is_ascii s = false <-> Exists (fun c => ~ (0 <= c < 128)) s.
Proof.
  induction s as [|c s IH]; cbn [forallb].
  - split; [discriminate | intros H; inversion H].
  - rewrite Exists_cons, <- IH. unfold is_ascii at 1.
    destruct (Z.leb_spec 0 c), (Z.ltb_spec c 128); cbn [andb].
    + split; [intros H1; right; exact H1 | intros [H1|H1]; [lia | exact H1]].
    + split; intros _; [left; lia | reflexivity].
    + split; intros _; [left; lia | reflexivity].
    + split; intros _; [left; lia | reflexivity].
Qed.

Lemma ascii_Forall (s : pystr) :
  forallb is_ascii s = true -> Forall (fun c => 0 <= c < 128) s.
Proof.
  induction s as [|c s IH]; cbn [forallb]; [constructor|].
  intros H. apply andb_prop in H as [H1 H2]. constructor; [|apply IH, H2].
  unfold is_ascii in H1. apply andb_prop in H1 as [Ha Hb]. lia.
Qed.

(** X15. [encode] fails for one reason only besides a missing avatar: it
    raises [UnicodeEncodeError] exactly when the text holds a character
    that is not ASCII, and it never raises [UnicodeDecodeError] or
    [binascii.Error], so ASCII text from an invoker with an avatar is
    always answered with the embed. *)
Theorem encode_raises_only (ctx : Context) (s : pystr) :
  (encode ctx s = Raised UnicodeEncodeError <-> Exists (fun c => ~ (0 <= c < 128)) s)
  /\ encode ctx s <> Raised UnicodeDecodeError
  /\ encode ctx s <> Raised BinasciiError
  /\ (Forall (fun c => 0 <= c < 128) s -> avatar_url (author ctx) <> None ->
      exists e, encode ctx s = Sent e).
Proof.
  rewrite <- not_ascii_Exists. unfold encode, encode_ascii, decode_ascii.
  destruct (forallb is_ascii s) eqn:E.
  - apply ascii_Forall in E. rewrite (b64encode_ascii s (ascii_octets s E)).
    destruct (avatar_url (author ctx)) as [icon|].
    + repeat split; try discriminate. intros _ _. eexists. reflexivity.
    + repeat split; try discriminate. intros _ H. exfalso. apply H. reflexivity.
  - repeat split; try discriminate. intros H. apply ascii_forallb in H. congruence.
Qed.



Lemma a2b_loop_filter (s : pybytes) :
  forall q l p bin,
    a2b_loop (List.filter is_b64_char s) q l p bin = a2b_loop s q l p bin.
Proof.
  induction s as [|c s IH]; intros q l p bin; [reflexivity|].
  cbn [List.filter]. unfold is_b64_char at 1.
  destruct (c =? BASE64_PAD) eqn:Ep; cbn [orb].
  - cbn [a2b_loop]. rewrite Ep.
    destruct (2 <=? q); [destruct (4 <=? q + (p + 1)); [reflexivity|]|]; apply IH.
  - destruct (table_a2b_base64 c) as [v|] eqn:Et.
    + cbn [a2b_loop]. rewrite Ep, Et.
      destruct (q =? 0); [apply IH|]. destruct (q =? 1); [apply IH|].
      destruct (q =? 2); apply IH.
    + cbn [a2b_loop]. rewrite Ep, Et. apply IH.
Qed.

Lemma filter_ascii (f : Z -> bool) (s : pystr) :
  forallb is_ascii s = true -> forallb is_ascii (List.filter f s) = true.
Proof.
  induction s as [|c s IH]; cbn [forallb List.filter]; [reflexivity|].
  intros H. apply andb_prop in H as [H1 H2]. destruct (f c); cbn [forallb].
  - rewrite H1, IH by exact H2. reflexivity.
  - apply IH, H2.
Qed.

(** X17. [decode] reads through characters that are not base64: for
    ASCII input, spaces, line breaks and any other character outside the
    alphabet and the pad sign make no difference to what is shown under
    "Decoded text:" (or to whether anything is shown). *)
Theorem decode_skips_other_characters (ctx : Context) (s : pystr) :
  Forall (fun c => 0 <= c < 128) s ->
  field_of (decode ctx s) "Decoded text:"
  = field_of (decode ctx (List.filter is_b64_char s)) "Decoded text:".
Proof.
  intros Hs. apply ascii_forallb in Hs. unfold decode, encode_ascii.
  rewrite Hs, (filter_ascii is_b64_char s Hs). unfold b64decode.
  rewrite a2b_loop_filter.
  destruct (a2b_loop s 0 0 0 []) as [b|]; [|reflexivity].
  destruct (decode_ascii b); [|reflexivity].
  destruct (avatar_url (author ctx)); reflexivity.
Qed.

Lemma decode_skips_other_characters_witness :
  field_of (decode dee [97; 32; 71; 10; 107; 104]) "Decoded text:"
  = field_of (decode dee (List.filter is_b64_char [97; 32; 71; 10; 107; 104]))
      "Decoded text:".
Proof.
  apply (decode_skips_other_characters dee [97; 32; 71; 10; 107; 104]).
  repeat constructor; lia.
Defined.

End EncodingExtras.

Section FactExtras.
Import Fact FactUrls.

Variable lower title : string -> string.
Variable request : string -> Response.

(** X18. The "API returned a ... status" reply of [fact] always names
    status 200: it is sent only when the image request failed and the
    fact request succeeded, and the status it prints is the fact
    request's, never the one of the request that failed. *)
Theorem api_status_reply_says_200 (ctx : Context) (animal mention : string) (st : Z) :
  In (ReplyApiStatus mention st) (out (animal_fact lower title request ctx animal)) ->
  st = 200
  /\ status (request (image_url (lower animal))) <> 200
  /\ status (request (fact_url (lower animal))) = 200.
Proof.
  unfold animal_fact. fold (image_url (lower animal)). fold (fact_url (lower animal)).
  destruct (existsb _ animals); [|intros []].
  destruct (status (request (image_url (lower animal))) =? 200) eqn:Ei.
  - destruct (getitem "link" _); [|intros []].
    destruct (status (request (fact_url (lower animal))) =? 200);
      [|intros [H|[]]; discriminate].
    destruct (getitem "fact" _); [|intros []]. intros [H|[]]. discriminate.
  - destruct (status (request (fact_url (lower animal))) =? 200) eqn:Ef;
      [|intros [H|[]]; discriminate].
    destruct (getitem "fact" _); [|intros []]. intros [H|[]].
    injection H as _ <-. apply Z.eqb_eq in Ef. apply Z.eqb_neq in Ei. auto.
Qed.

(** X19. [fact] shows a fact only with both answers in hand: an embed is
    sent only for an animal of the list, when the image request and the
    fact request both returned 200, and it carries the fact and the image
    link of those two answers under the title made from the animal's name. *)
Theorem fact_embed_needs_both (ctx : Context) (animal t d img : string) (col : Z) :
  In (ReplyEmbed t d col img) (out (animal_fact lower title request ctx animal)) ->
  In (lower animal) animals
  /\ status (request (image_url (lower animal))) = 200
  /\ getitem "link" (json (request (image_url (lower animal)))) = Some img
  /\ status (request (fact_url (lower animal))) = 200
  /\ getitem "fact" (json (request (fact_url (lower animal)))) = Some d
  /\ t = (title (lower animal) ++ " fact")%string
  /\ col = author_colour ctx.
Proof.
  unfold animal_fact. fold (image_url (lower animal)). fold (fact_url (lower animal)).
  destruct (existsb _ animals) eqn:Ea; [|intros []].
  apply existsb_exists in Ea as (x & Hx & Ex). apply String.eqb_eq in Ex. subst x.
  destruct (status (request (image_url (lower animal))) =? 200) eqn:Ei.
  - destruct (getitem "link" _) as [link|]; [|intros []].
    destruct (status (request (fact_url (lower animal))) =? 200) eqn:Ef;
      [|intros [H|[]]; discriminate].
    destruct (getitem "fact" _) as [fact|]; [|intros []]. intros [H|[]].
    injection H as <- <- <- <-. apply Z.eqb_eq in Ef, Ei. auto 10.
  - destruct (status (request (fact_url (lower animal))) =? 200);
      [|intros [H|[]]; discriminate].
    destruct (getitem "fact" _); [|intros []]. intros [H|[]]. discriminate.
Qed.

End FactExtras.

Section FactRuns.
Import Fact FactUrls.

Lemma api_status_reply_says_200_witness :
  200 = 200
  /\ status (no_images (image_url (PyStr.lower "Fox"))) <> 200
  /\ status (no_images (fact_url (PyStr.lower "Fox"))) = 200.
Proof.
  apply (api_status_reply_says_200 PyStr.lower PyStr.title no_images bob "Fox" "<@9>" 200).
  vm_compute. left. reflexivity.
Defined.

Lemma fact_embed_needs_both_witness :
  In (PyStr.lower "Bird") animals
  /\ status (service (image_url (PyStr.lower "Bird"))) = 200
  /\ getitem "link" (json (service (image_url (PyStr.lower "Bird"))))
     = Some "https://i.example/1.png"%string
  /\ status (service (fact_url (PyStr.lower "Bird"))) = 200
  /\ getitem "fact" (json (service (fact_url (PyStr.lower "Bird"))))
     = Some "They sleep a lot."%string
  /\ "Bird fact"%string = (PyStr.title (PyStr.lower "Bird") ++ " fact")%string
  /\ 255 = author_colour bob.
Proof.
  apply (fact_embed_needs_both PyStr.lower PyStr.title service bob "Bird" "Bird fact"
           "They sleep a lot." "https://i.example/1.png" 255).
  vm_compute. left. reflexivity.
Defined.

End FactRuns.

Section TelephoneClosure.
Import Telephone TelephoneFrame.

Variable lower : string -> string.
Variable bot : Bot.
Variable ctx : Context.
Variable server : Guild.

(** A property of the world that posting allowed actions and updating the
    two lines keep. *)
Variable P : world -> Prop.
Variable ok : action -> Prop.
Hypothesis ok_send_here : forall t, ok (Send (channel ctx) t).
Hypothesis ok_reply_here : forall t, ok (Reply (channel ctx) t).
Hypothesis ok_sleep : forall q, ok (Sleep q).
Hypothesis P_emit : forall l w, Forall ok l -> P w -> P (emit l w).
Hypothesis P_update_here :
  forall v w, P w -> P (telephone_update (guild_id (guild ctx)) v w).
Hypothesis P_update_there :
  forall v w, P w -> P (telephone_update (guild_id server) v w).

Ltac closed :=
  repeat first
    [ assumption
    | apply P_update_here
    | apply P_update_there
    | apply P_emit; [solve [repeat constructor; auto]|] ].

Lemma line_inactive_closed tc w :
  (forall t, ok (Send tc t)) -> P w -> P (snd (line_inactive bot ctx server tc w)).
Proof.
  intros Htc Hw. unfold line_inactive.
  destruct (get_guild bot (guild_id server)); cbn [snd]; closed.
Qed.

Lemma relayed_ok tc m : (forall t, ok (Send tc t)) -> Forall ok (relayed ctx tc m).
Proof.
  intros Htc. unfold relayed.
  destruct (msg_channel m =? tc); [repeat constructor; auto|].
  destruct (msg_channel m =? channel ctx); repeat constructor; auto.
Qed.

Lemma relay_loop_closed tc ini tks :
  (forall t, ok (Send tc t)) ->
  forall w, P w -> P (snd (relay_loop lower bot ctx server tc ini tks w)).
Proof.
  intros Htc. induction tks as [|[window now] tks IH]; intros w Hw; [exact Hw|].
  cbn [relay_loop].
  destruct (wait_for (check_talk ctx tc) window) as [m|];
    [|apply line_inactive_closed; assumption].
  destruct (String.eqb (lower (content m)) "hangup"); [cbn [snd]; closed|].
  destruct (Qle_bool (ini - now) 60).
  - cbn [snd]. closed. apply P_emit; [apply relayed_ok, Htc | exact Hw].
  - apply IH. apply P_emit; [apply relayed_ok, Htc | exact Hw].
Qed.

Lemma dial_closed inp w :
  (forall tc t, line_channel bot w (guild_id server) = Some tc -> ok (Send tc t)) ->
  P w -> P (snd (dial lower bot ctx server inp w)).
Proof.
  intros Htc Hw. unfold dial.
  destruct (Nat.eqb (guild_ref server) (guild_ref (guild ctx))); [cbn [snd]; closed|].
  destruct (tel w !! guild_id (guild ctx)) as [self_guild|]; [|cbn [snd]; closed].
  unfold line_channel in Htc.
  destruct (tel w !! guild_id server) as [target_guild|]; [|cbn [snd]; closed].
  destruct (is_line_busy target_guild).
  { destruct (get_guild bot (guild_id server)); cbn [snd]; closed. }
  destruct (get_channel bot (tel_channel target_guild)) as [tc|]; [|cbn [snd]; closed].
  assert (Hsend : forall t, ok (Send tc t)) by (intros t; apply Htc; reflexivity).
  destruct (existsb _ _ || existsb _ _); [cbn [snd]; closed|].
  destruct (get_guild bot (guild_id server)) as [g|]; [|cbn [snd]; closed].
  destruct (wait_for (check_handshake lower ctx tc) (handshake inp)) as [m|];
    [|apply line_inactive_closed; [exact Hsend | closed]].
  destruct (String.eqb (lower (content m)) "hangup"); [cbn [snd]; closed|].
  destruct (String.eqb (lower (content m)) "pickup"); [|cbn [snd]; closed].
  apply relay_loop_closed; [exact Hsend | closed].
Qed.

End TelephoneClosure.

Section TelephoneExtras.
Import Telephone TelephoneFrame.

Variable lower : string -> string.
Variable bot : Bot.
Variable ctx : Context.
Variable server : Guild.

Lemma same_but_busy_update a b g v w w' :
  g = a \/ g = b -> same_but_busy a b w w' -> same_but_busy a b w (telephone_update g v w').
Proof.
  intros Hg H k. destruct (H k) as [H1 H2]. unfold telephone_update. cbn [tel]. split.
  - rewrite lookup_alter. destruct (decide (g = k)) as [E|E]; [|exact H1].
    subst k. rewrite <- H1. destruct (tel w' !! g) as [d|]; reflexivity.
  - intros Ha Hb. rewrite lookup_alter.
    destruct (decide (g = k)) as [E|E]; [subst k; destruct Hg; congruence|].
    apply H2; assumption.
Qed.

(** X20. A call touches nothing but the busy marks of its two lines:
    whatever happens during [dial], on any input and however it ends, every
    telephone record keeps its channel, its ping settings and its block
    list, no record is added or removed, and the records of all guilds
    other than the caller's and the called one are exactly as before. *)
Theorem dial_keeps_records (inp : Input) (w : world) :
  same_but_busy (guild_id (guild ctx)) (guild_id server) w
    (snd (dial lower bot ctx server inp w)).
Proof.
  apply (dial_closed lower bot ctx server
           (same_but_busy (guild_id (guild ctx)) (guild_id server) w) (fun _ => True)).
  - intros. exact I.
  - intros. exact I.
  - intros. exact I.
  - intros l w' _ H. exact H.
  - intros v w' H. apply same_but_busy_update; [left; reflexivity | exact H].
  - intros v w' H. apply same_but_busy_update; [right; reflexivity | exact H].
  - intros. exact I.
  - intros k. split; reflexivity.
Qed.

(** X21. A call addresses only its own two channels and never takes a
    message back: what [dial] has issued when it ends (or waits) is what
    was issued before followed by pauses and by messages addressed to the
    caller's channel (through [ctx.send], [ctx.reply] or [channel.send]) or
    to the channel of the called guild's line.  Where a message issued
    through [ctx] lands is decided by [Context.send]. *)
Theorem dial_posts_in_call_channels (inp : Input) (w : world) :
  exists l,
    sent (snd (dial lower bot ctx server inp w)) = sent w ++ l
    /\ Forall (addressed (fun ch => ch = channel ctx
                                    \/ line_channel bot w (guild_id server) = Some ch)) l.
Proof.
  set (chans := fun ch => ch = channel ctx
                          \/ line_channel bot w (guild_id server) = Some ch).
  apply (dial_closed lower bot ctx server
           (fun w' => exists l, sent w' = sent w ++ l /\ Forall (addressed chans) l)
           (addressed chans)).
  - intros t. left. reflexivity.
  - intros t. left. reflexivity.
  - intros q. exact I.
  - intros l w' Hl (l0 & E & H0). exists (l0 ++ l). split.
    + cbn [emit sent]. rewrite E, app_assoc. reflexivity.
    + apply Forall_app. split; assumption.
  - intros v w' H. exact H.
  - intros v w' H. exact H.
  - intros tc t Htc. right. exact Htc.
  - exists []. split; [rewrite app_nil_r; reflexivity | constructor].
Qed.

End TelephoneExtras.

Section TelephoneCalls.
Import Telephone TelephoneFrame.

Variable lower : string -> string.
Variable bot : Bot.
Variable ctx : Context.
Variable server : Guild.

Ltac past_refusals H :=
  let Href := fresh "Href" in
  let sg := fresh "self_guild" in
  let tg := fresh "target_guild" in
  destruct H as (Href & sg & tg & ?Hself & ?Htarget & ?Hfree & ?Hchan & ?Hb1 & ?Hb2 & ?Hg);
  apply Nat.eqb_neq in Href;
  unfold dial;
  rewrite Href, Hself, Htarget, Hfree, Hchan, Hb1, Hb2, Hg;
  cbn [orb].

Lemma busy_update_same v w k :
  is_Some (busy w k) -> busy (telephone_update k v w) k = Some v.
Proof.
  rewrite busy_update. intros [b Hb]. rewrite Hb.
  destruct (decide (k = k)); [reflexivity | congruence].
Qed.

Lemma busy_update_keeps g v w k :
  busy w k = Some v -> busy (telephone_update g v w) k = Some v.
Proof.
  rewrite busy_update. intros Hb. rewrite Hb.
  destruct (decide (g = k)); reflexivity.
Qed.

(** X22. A "hangup" as the answer to the ringing ends the call before it
    is connected: after "Calling to" and "Incoming call" the handler tells
    both channels "Disconnected", greets nobody, relays nothing, leaves
    both lines free and returns. *)
Theorem dial_hangup_before_pickup (inp : Input) (w : world) (tc : Z) (g : Guild)
    (m : Message) :
  call_placed bot ctx server w tc g ->
  wait_for (check_handshake lower ctx tc) (handshake inp) = Some m ->
  lower (content m) = "hangup"%string ->
  exists w',
    dial lower bot ctx server inp w = (Returned, w')
    /\ sent w' = sent w ++ ringing ctx server tc g
                  ++ [Send (channel ctx) Disconnected; Send tc Disconnected]
    /\ busy w' (guild_id (guild ctx)) = Some false
    /\ busy w' (guild_id server) = Some false.
Proof.
  intros Hplaced Hm Hup.
  destruct (placed_has_lines bot ctx server w tc g Hplaced) as [Ha Hb].
  past_refusals Hplaced.
  rewrite Hm, Hup. cbn [String.eqb Ascii.eqb Bool.eqb andb].
  eexists. split; [reflexivity|]. split.
  - rewrite !sent_update. cbn [sent emit]. unfold ringing.
    rewrite <- ?app_assoc. reflexivity.
  - split.
    + apply busy_update_keeps, busy_update_same. rewrite !busy_emit. exact Ha.
    + apply busy_update_same, has_line_update. rewrite !busy_emit. exact Hb.
Qed.


End TelephoneCalls.

Section TelephoneCallRuns.
Import Telephone TelephoneFrame.

Ltac home_calls_away :=
  split; [cbn; lia|]; exists (line 11 false), (line 22 false);
  repeat split; reflexivity.

Lemma dial_hangup_before_pickup_witness :
  exists w',
    dial PyStr.lower parrot caller away refused idle = (Returned, w')
    /\ sent w' = sent idle ++ ringing caller away 22 away
                  ++ [Send (channel caller) Disconnected; Send 22 Disconnected]
    /\ busy w' (guild_id (guild caller)) = Some false
    /\ busy w' (guild_id away) = Some false.
Proof.
  apply (dial_hangup_before_pickup PyStr.lower parrot caller away refused idle 22 away
           (msg "Hangup" 22)).
  - home_calls_away.
  - reflexivity.
  - reflexivity.
Defined.


End TelephoneCallRuns.

Section OnCmdFacts.
Import OnCmd.

Lemma count_of_inc_upsert (n name : string) (c : cmd_count) :
  count_of name (inc_upsert n c)
  = count_of name c + (if String.eqb n name then 1 else 0).
Proof.
  unfold count_of, inc_upsert. change cmd_count with (gmap string Z) in *.
  destruct (String.eqb_spec n name) as [->|N].
  - rewrite lookup_partial_alter_eq. reflexivity.
  - rewrite lookup_partial_alter_ne by exact N. lia.
Qed.

(** X24. The command counter counts users' invocations and nothing else:
    after [on_command] has run for every invocation of a log, the count of
    a command is its earlier count (0 when it had none) plus the number of
    invocations of that command in the log whose author is not a bot. *)
Theorem on_commands_counts (log : list Context) (name : string) (c : cmd_count) :
  count_of name (on_commands log c)
  = count_of name c + Z.of_nat (length (List.filter (counted name) log)).
Proof.
  unfold on_commands. revert c. induction log as [|ctx log IH]; intros c.
  - cbn. lia.
  - cbn [fold_left List.filter]. rewrite IH. unfold on_command, counted.
    destruct (author_bot ctx); cbn [negb andb]; [reflexivity|].
    rewrite count_of_inc_upsert.
    destruct (String.eqb (qualified_name (command ctx)) name); cbn [length]; lia.
Qed.

(** X25. The special answers for a missing message, member, user,
    channel, role or emoji are never given: when the command has no local
    error handler, for every [BadArgument], of whatever subclass and also
    when it comes wrapped in a [CommandInvokeError], the handler hands
    [ctx.reply] the title "Bad Argument" with the error's own text and
    resets the cooldown.  It never raises the error again; it fails, with
    [AttributeError], only when [ctx.reply] returned no message and the
    invoking message is deleted within the ten seconds. *)
Theorem bad_argument_always_generic (ctx : Context) (kind : bad_argument) (s : string)
    (replied deleted : bool) :
  has_on_error (command ctx) = false ->
  on_command_error ctx (BadArgument kind s) replied deleted
  = {| answer := Some {| title := framed "Bad Argument"; description := s; image := None |};
       cooldown_reset := true;
       answer_deleted := deleted && replied;
       raised := if deleted && negb replied then Some AttributeError else None |}
  /\ on_command_error ctx (CommandInvokeError (BadArgument kind s)) replied deleted
     = on_command_error ctx (BadArgument kind s) replied deleted.
Proof.
  intros H. unfold on_command_error. rewrite H. cbn [unwrap ignore classify].
  split; [|reflexivity]. destruct kind; reflexivity.
Qed.

Lemma bad_argument_always_generic_witness :
  on_command_error (by_user ping) (BadArgument MemberNotFound "Member x not found.")
    false true
  = {| answer := Some {| title := framed "Bad Argument";
                         description := "Member x not found."; image := None |};
       cooldown_reset := true;
       answer_deleted := true && false;
       raised := if true && negb false then Some AttributeError else None |}
  /\ on_command_error (by_user ping)
       (CommandInvokeError (BadArgument MemberNotFound "Member x not found.")) false true
     = on_command_error (by_user ping) (BadArgument MemberNotFound "Member x not found.")
         false true.
Proof.
  apply (bad_argument_always_generic (by_user ping) MemberNotFound "Member x not found."
           false true).
  reflexivity.
Defined.

Lemma names_of_None (items : list role) :
  (exists id, In (RoleId id) items) -> names_of items = None.
Proof.
  intros (id & Hin). induction items as [|[name|i] items IH]; [destruct Hin| |reflexivity].
  cbn [names_of]. destruct Hin as [E|Hin]; [discriminate|]. rewrite IH by exact Hin.
  reflexivity.
Qed.

(** X26. A missing role given by its id is never reported: when the
    command has no local error handler, for [MissingRole] with an id, and
    for [MissingAnyRole] with an id among the roles that are joined (all of
    them up to two roles, all but the last beyond), the handler raises
    [TypeError] while it builds the text, and hands [ctx.reply] nothing. *)
Theorem role_ids_are_not_reported (ctx : Context) (e : error) (replied deleted : bool) :
  has_on_error (command ctx) = false ->
  (exists id, e = MissingRole (RoleId id))
  \/ (exists roles id,
        e = MissingAnyRole roles
        /\ In (RoleId id) (if (2 <? length roles)%nat then removelast roles else roles)) ->
  answer (on_command_error ctx e replied deleted) = None
  /\ raised (on_command_error ctx e replied deleted) = Some TypeError.
Proof.
  intros H [(id & ->)|(roles & id & -> & Hin)]; unfold on_command_error; rewrite H;
    cbn [unwrap ignore classify list_of_role]; [split; reflexivity|].
  unfold fmt_roles. destruct (2 <? length roles)%nat;
    rewrite names_of_None by (exists id; exact Hin); split; reflexivity.
Qed.

Lemma role_ids_are_not_reported_witness :
  answer (on_command_error (by_user ping)
            (MissingAnyRole [RoleName "Admin"; RoleId 42; RoleName "Mod"]) true false) = None
  /\ raised (on_command_error (by_user ping)
               (MissingAnyRole [RoleName "Admin"; RoleId 42; RoleName "Mod"]) true false)
     = Some TypeError.
Proof.
  apply (role_ids_are_not_reported (by_user ping)
           (MissingAnyRole [RoleName "Admin"; RoleId 42; RoleName "Mod"]) true false).
  - reflexivity.
  - right. exists [RoleName "Admin"; RoleId 42; RoleName "Mod"], 42.
    split; [reflexivity|]. cbn. right. left. reflexivity.
Defined.



End OnCmdFacts.

Section ContextCodeFacts.
Import ContextCode.

Lemma fold_max_ge (es : list (pystr * pystr)) (m : nat) :
  (m <= fold_left longer es m)%nat
  /\ Forall (fun e => (length (fst e)
                       <= fold_left longer es m)%nat) es.
Proof.
  revert m. induction es as [|e es IH]; intros m; cbn [fold_left].
  - split; [lia | constructor].
  - destruct (IH (longer m e)) as [H1 H2]. split.
    + eapply Nat.le_trans; [apply (Nat.le_max_l m (length (fst e))) | exact H1].
    + constructor; [|exact H2].
      eapply Nat.le_trans; [apply (Nat.le_max_r m (length (fst e))) | exact H1].
Qed.

Lemma fold_max_attained (es : list (pystr * pystr)) (m : nat) :
  fold_left longer es m = m
  \/ Exists (fun e => length (fst e)
                      = fold_left longer es m) es.
Proof.
  revert m. induction es as [|e es IH]; intros m; cbn [fold_left]; [left; reflexivity|].
  destruct (IH (longer m e)) as [H|H].
  - rewrite H. unfold longer.
    destruct (Nat.max_spec m (length (fst e))) as [[_ E]|[_ E]]; rewrite E.
    + right. apply Exists_cons_hd. reflexivity.
    + left. reflexivity.
  - right. apply Exists_cons_tl. exact H.
Qed.

Lemma max_len_bounds (entries : list (pystr * pystr)) (width : nat) :
  max_len entries = Some width ->
  Forall (fun e => (length (fst e) <= width)%nat) entries
  /\ Exists (fun e => length (fst e) = width) entries.
Proof.
  destruct entries as [|e es]; [discriminate|]. cbn [max_len]. intros H.
  injection H as <-. split.
  - destruct (fold_max_ge es (length (fst e))) as [H1 H2]. constructor; assumption.
  - destruct (fold_max_attained es (length (fst e))) as [H|H].
    + apply Exists_cons_hd. symmetry. exact H.
    + apply Exists_cons_tl. exact H.
Qed.

Lemma spaces_only (n : nat) : Forall (fun c : Z => c = 32) (repeat 32 n).
Proof. induction n as [|n IH]; cbn [repeat]; constructor; [reflexivity | exact IH]. Qed.

Lemma ljust_aligned (width : nat) (e : pystr * pystr) :
  (length (fst e) <= width)%nat ->
  left_aligned width e (ljust width (fst e) ++ [58; 32] ++ snd e).
Proof.
  intros H. exists (repeat 32 (width - length (fst e))). split; [reflexivity|]. split.
  - rewrite length_app, repeat_length. lia.
  - apply spaces_only.
Qed.

Lemma rjust_aligned (width : nat) (e : pystr * pystr) :
  (length (fst e) <= width)%nat ->
  right_aligned width e ([8203] ++ rjust width (fst e) ++ [58; 32] ++ snd e).
Proof.
  intros H. exists (repeat 32 (width - length (fst e))). split; [reflexivity|]. split.
  - rewrite length_app, repeat_length. lia.
  - apply spaces_only.
Qed.

(** X28. The code blocks of [entry_to_code] and
    [indented_entry_to_code] line up: for a list of entries that is not
    empty, the text handed to [send] is a fence, one line per entry in
    order and a fence, and in every line the name is padded with spaces (on
    the right, or on the left after a zero-width space) to one common
    width, the length of the longest name, before [": "] and the entry.
    On an empty list both raise [ValueError] and send nothing. *)
Theorem entry_to_code_aligned (entries : list (pystr * pystr)) :
  match entries with
  | [] =>
      entry_to_code entries = Raised ValueError
      /\ indented_entry_to_code entries = Raised ValueError
  | _ :: _ =>
      exists width lines lines',
        entry_to_code entries = Send (join [10] ([fence] ++ lines ++ [fence]))
        /\ Forall2 (left_aligned width) entries lines
        /\ indented_entry_to_code entries = Send (join [10] ([fence] ++ lines' ++ [fence]))
        /\ Forall2 (right_aligned width) entries lines'
        /\ Exists (fun e => length (fst e) = width) entries
  end.
Proof.
  destruct entries as [|e0 es]; [split; reflexivity|].
  set (entries := e0 :: es).
  destruct (max_len entries) as [width|] eqn:E; [|discriminate].
  destruct (max_len_bounds entries width E) as [Hle Hex].
  exists width,
    (List.map (fun e => ljust width (fst e) ++ [58; 32] ++ snd e) entries),
    (List.map (fun e => [8203] ++ rjust width (fst e) ++ [58; 32] ++ snd e) entries).
  split; [unfold entry_to_code; rewrite E; reflexivity|]. split.
  { clear E Hex. induction Hle as [|e l He _ IH]; cbn [List.map]; constructor.
    - apply ljust_aligned, He.
    - exact IH. }
  split; [unfold indented_entry_to_code; rewrite E; reflexivity|]. split.
  { clear E Hex. induction Hle as [|e l He _ IH]; cbn [List.map]; constructor.
    - apply rjust_aligned, He.
    - exact IH. }
  exact Hex.
Qed.

End ContextCodeFacts.

Section SuperOwnerFacts.
Import SuperOwner.

Variable upper : string -> string.
Variable get_user : Z -> option Z.

(** X29. A report reaches the owner only after a confirmation: whenever
    [reportuser] sends the owner a message, the first message of the
    invoker in the invoking channel within the wait read "YES" once
    upper-cased, the text sent is the first 1000 characters of the report,
    and the receiver is the cached owner or, with nothing cached, the user
    the bot finds under the owner's id. *)
Theorem report_needs_confirmation (self : Owner) (ctx : Context) (text : pystr)
    (window : list Message) (user : Z) (mention : string) (t : pystr) :
  In (OwnerSend user mention t) (out (reportuser upper get_user self ctx text window)) ->
  (exists msg,
      List.find (check ctx) window = Some msg
      /\ msg_author msg = author ctx /\ msg_channel msg = channel ctx
      /\ upper (content msg) = "YES"%string)
  /\ t = firstn 1000%nat text /\ (length t <= 1000)%nat
  /\ mention = author_mention ctx
  /\ (owner self = Some user \/ owner self = None /\ get_user OWNER_ID = Some user).
Proof.
  unfold reportuser.
  destruct (List.find (check ctx) window) as [msg|] eqn:Ef.
  2:{ cbn. intros [H|[H|[]]]; discriminate. }
  destruct (String.eqb_spec (upper (content msg)) "YES") as [Eu|_].
  2:{ cbn. intros [H|[]]; discriminate. }
  assert (Hmsg : msg_author msg = author ctx /\ msg_channel msg = channel ctx).
  { apply find_some in Ef as [_ Hc]. unfold check in Hc.
    apply andb_prop in Hc as [H1 H2]. split; apply Z.eqb_eq; assumption. }
  assert (Hex : exists m,
             Some msg = Some m /\ msg_author m = author ctx
             /\ msg_channel m = channel ctx /\ upper (content m) = "YES"%string).
  { exists msg. tauto. }
  destruct (owner self) as [u|] eqn:Eo; cbn [owner].
  - rewrite Eo. cbn [out app In]. intros [H|[H|[H|[]]]]; try discriminate.
    injection H as <- <- <-. split; [exact Hex|].
    split; [reflexivity|]. split; [apply firstn_le_length|]. split; [reflexivity|].
    left. reflexivity.
  - destruct (get_user OWNER_ID) as [u|] eqn:Eg.
    + cbn [out app In]. intros [H|[H|[H|[]]]]; try discriminate.
      injection H as <- <- <-. split; [exact Hex|].
      split; [reflexivity|]. split; [apply firstn_le_length|]. split; [reflexivity|].
      right. split; reflexivity.
    + cbn [out app In]. intros [H|[H|[]]]; discriminate.
Qed.

(** X30. Told "reported" with nothing delivered: when no owner is cached
    and the bot does not find the owner's user, a confirmed report sends the
    prompt and the "reported" notice to the invoker, delivers nothing to
    anybody and fails with [AttributeError]; the cache stays empty, so the
    next report looks the owner up again. *)
Theorem reported_without_delivery (self : Owner) (ctx : Context) (text : pystr)
    (window : list Message) (msg : Message) :
  owner self = None ->
  get_user OWNER_ID = None ->
  List.find (check ctx) window = Some msg ->
  upper (content msg) = "YES"%string ->
  out (reportuser upper get_user self ctx text window)
  = [Ask (author_mention ctx); Reported (author_mention ctx)]
  /\ raised (reportuser upper get_user self ctx text window) = Some AttributeError
  /\ owner (self' (reportuser upper get_user self ctx text window)) = None.
Proof.
  intros Ho Hg Hf Hu. unfold reportuser. rewrite Ho, Hg, Hf, Hu. cbn.
  repeat split; reflexivity.
Qed.

End SuperOwnerFacts.

Section SuperOwnerRuns.
Import SuperOwner.

Lemma report_needs_confirmation_witness :
  (exists msg,
      List.find (check eve) [{| msg_author := 6; msg_channel := 50; content := "no" |};
                             {| msg_author := 5; msg_channel := 50; content := "yes" |}]
      = Some msg
      /\ msg_author msg = author eve /\ msg_channel msg = channel eve
      /\ upper (content msg) = "YES"%string)
  /\ [115; 112; 97; 109] = firstn 1000%nat [115; 112; 97; 109]
  /\ (length [115; 112; 97; 109] <= 1000)%nat
  /\ "<@5>"%string = author_mention eve
  /\ (owner fresh = Some OWNER_ID \/ owner fresh = None /\ everybody OWNER_ID = Some OWNER_ID).
Proof.
  apply (report_needs_confirmation upper everybody fresh eve [115; 112; 97; 109]
           [{| msg_author := 6; msg_channel := 50; content := "no" |};
            {| msg_author := 5; msg_channel := 50; content := "yes" |}]
           OWNER_ID "<@5>" [115; 112; 97; 109]).
  vm_compute. right. right. left. reflexivity.
Defined.

Lemma reported_without_delivery_witness :
  out (reportuser upper nobody fresh eve [115; 112; 97; 109]
         [{| msg_author := 5; msg_channel := 50; content := "Yes" |}])
  = [Ask (author_mention eve); Reported (author_mention eve)]
  /\ raised (reportuser upper nobody fresh eve [115; 112; 97; 109]
               [{| msg_author := 5; msg_channel := 50; content := "Yes" |}])
     = Some AttributeError
  /\ owner (self' (reportuser upper nobody fresh eve [115; 112; 97; 109]
                     [{| msg_author := 5; msg_channel := 50; content := "Yes" |}]))
     = None.
Proof.
  apply (reported_without_delivery upper nobody fresh eve [115; 112; 97; 109]
           [{| msg_author := 5; msg_channel := 50; content := "Yes" |}]
           {| msg_author := 5; msg_channel := 50; content := "Yes" |});
    reflexivity.
Defined.

End SuperOwnerRuns.

Section TelephoneExitFacts.
Import Telephone TelephoneExits.

Variable lower : string -> string.
Variable bot : Bot.
Variable ctx : Context.
Variable server : Guild.





End TelephoneExitFacts.

Section TelephoneExitRuns.
Import Telephone TelephoneExits.

Ltac home_rings_away :=
  split; [cbn; lia|]; exists (line 11 false), (line 22 false);
  repeat split; reflexivity.


(** C2 as stated fails when the limit passes in silence: the call is
    connected at 1000, one message is relayed at 1010, and nothing more is
    said, so the second turn ends 70 seconds after the connection with the
    "Line Inactive" notices.  The "maximum limit" notice is not sent. *)
Lemma duration_limit_claim_silent_turn :
  ~ duration_limit_claim PyStr.lower parrot caller away quiet_after_limit idle 22.
Proof.
  intros H.
  destruct (H away (msg "pickup" 22) [([msg "hi" 11], 1010%Q)] [] 1070%Q [])
    as (w' & before & Hrun & Hsent & _).
  - home_rings_away.
  - reflexivity.
  - reflexivity.
  - reflexivity.
  - constructor; [|constructor]. exists (msg "hi" 11).
    split; [reflexivity|]. split; [discriminate|].
    intros H1. vm_compute in H1. apply H1. reflexivity.
  - intros H1. vm_compute in H1. discriminate H1.
  - assert (Hlast : last (sent w') = Some (Send 22 DurationLimit)).
    { rewrite Hsent.
      change (last (before ++ [Send (channel caller) DurationLimit] ++ [Send 22 DurationLimit])
              = Some (Send 22 DurationLimit)).
      rewrite app_assoc. apply last_snoc. }
    vm_compute in Hrun. injection Hrun as <-. vm_compute in Hlast. discriminate Hlast.
Qed.

(** The run of the counterexample, and the same call ended by a "hangup"
    after the limit: neither sends the "maximum limit" notice. *)
Example quiet_after_limit_run :
  sent (snd (dial PyStr.lower parrot caller away quiet_after_limit idle))
  = [Send 11 (CallingTo 200 "Away"); Send 22 (IncomingCall 100 "Home");
     Send 11 (Connected "hi"); Send 22 (Connected "hi");
     Send 22 (Relayed "ann" "0001" "hi");
     Sleep (1 # 2); Send 22 (LineInactive 100 "Home"); Reply 11 (LineInactive 200 "Away")].
Proof. reflexivity. Qed.

Example hangup_after_limit_run :
  sent (snd (dial PyStr.lower parrot caller away hangup_after_limit idle))
  = [Send 11 (CallingTo 200 "Away"); Send 22 (IncomingCall 100 "Home");
     Send 11 (Connected "hi"); Send 22 (Connected "hi");
     Send 22 (Relayed "ann" "0001" "hi");
     Send 11 Disconnected; Send 22 Disconnected].
Proof. reflexivity. Qed.

(** A call from home to away that is connected: the handler waits in the
    loop and both lines are busy. *)
Example just_connected_waits :
  fst (dial PyStr.lower parrot caller away just_connected idle) = Waiting
  /\ busy (snd (dial PyStr.lower parrot caller away just_connected idle)) 100 = Some true
  /\ busy (snd (dial PyStr.lower parrot caller away just_connected idle)) 200 = Some true.
Proof. vm_compute. repeat split; reflexivity. Qed.


Example guild_gone_lines_busy :
  let w := snd (dial PyStr.lower parrot caller away just_connected idle) in
  let r := relay_loop PyStr.lower kicked caller away 22 1120 [([], 1060%Q)] w in
  fst r = Raised AttributeError
  /\ busy (snd r) 100 = Some true /\ busy (snd r) 200 = Some true.
Proof. vm_compute. repeat split; reflexivity. Qed.

End TelephoneExitRuns.

Section TagRaceFacts.
Import Tags TagRace.

(** With no write in between, the handler with its calls apart is
    [_create_tag]. *)
Lemma _create_tag_between_same ctx tag t v now c :
  _create_tag_between ctx tag t v now c c = _create_tag ctx tag t v now c.
Proof. reflexivity. Qed.

(** C9 as stated fails when two creations of one name overlap.  Bea asks
    for the tag "new" while the guild has only "hello": her lookup finds
    nothing and she is shown the prompt.  Before she presses a button, Ann
    creates "new" from start to end.  Bea's button press then inserts a
    second document named "new": the ids were distinct at her lookup and up
    to her write, and are not after it. *)
Lemma unique_ids_claim_overlap :
  ~ unique_ids_claim bea "new" "from bea" (Some false) 9 [hello]
      (store (_create_tag ann "new" "from ann" (Some false) 8 [hello])).
Proof.
  unfold unique_ids_claim. intros H.
  assert (Hnd : NoDup (ids (store (_create_tag_between bea "new" "from bea" (Some false) 9
                                     [hello]
                                     (store (_create_tag ann "new" "from ann"
                                               (Some false) 8 [hello])))))).
  { apply H; apply (bool_decide_unpack _); vm_compute; reflexivity. }
  vm_compute in Hnd. apply NoDup_cons in Hnd as [_ Hnd].
  apply NoDup_cons in Hnd as [Hin _]. apply Hin. left.
Qed.

Example overlap_ids :
  ids (store (_create_tag_between bea "new" "from bea" (Some false) 9 [hello]
                (store (_create_tag ann "new" "from ann" (Some false) 8 [hello]))))
  = ["hello"; "new"; "new"]%string.
Proof. reflexivity. Qed.

End TagRaceFacts.
